(** * MAFC: the evidence-gathering and judgment loop

    A shallow embedding of [safe/searcher.py], [safe/judge.py] and
    [safe/reasoner.py].  The language model and the search backend are
    external services: they are modelled as transitions on an abstract
    world [W], and every call is recorded in a trace.  Python values are
    modelled as follows: [str] as [string], [int] as [Z], [None]-able
    values as [option], a raised exception as [Raise].  The character
    classes of [re], [strip()] and [lower()] are those of ASCII text (see
    [Py.isascii]).  Logging and printing are left out. *)

From Stdlib Require Import String Ascii List ZArith Bool Lia.
Import ListNotations.
Open Scope string_scope.
Open Scope Z_scope.

(** ** Python string primitives *)

Module Py.

(** The characters that cannot be written inside a string literal. *)
Definition nl : string := String (ascii_of_nat 10) EmptyString.
Definition dquote : ascii := ascii_of_nat 34.

(** [len(s)] *)
Definition len (s : string) : Z := Z.of_nat (String.length s).

(** [not s] for a string: only the empty string is falsy. *)
Definition is_empty (s : string) : bool :=
  match s with EmptyString => true | String _ _ => false end.

(** [s.startswith(p)] *)
Definition startswith (s p : string) : bool := String.prefix p s.

(** [sub in s] for two strings. *)
Fixpoint contains (sub s : string) : bool :=
  String.prefix sub s ||
  match s with
  | EmptyString => false
  | String _ s' => contains sub s'
  end.

(** [x in l] for a list of strings. *)
Definition str_in (x : string) (l : list string) : bool :=
  existsb (String.eqb x) l.

(** [sep.join(l)] *)
Definition join (sep : string) (l : list string) : string :=
  String.concat sep l.

Fixpoint map_chars (f : ascii -> ascii) (s : string) : string :=
  match s with
  | EmptyString => EmptyString
  | String c s' => String (f c) (map_chars f s')
  end.

Fixpoint filter_chars (p : ascii -> bool) (s : string) : string :=
  match s with
  | EmptyString => EmptyString
  | String c s' => if p c then String c (filter_chars p s') else filter_chars p s'
  end.

(** [s.replace(c, '')] for a one-character pattern [c]. *)
Definition remove_char (c : ascii) (s : string) : string :=
  filter_chars (fun d => negb (Ascii.eqb c d)) s.

Definition in_range (lo hi : nat) (c : ascii) : bool :=
  let n := nat_of_ascii c in (Nat.leb lo n && Nat.leb n hi)%bool.

(** [s.isascii()]: every character of [s] is an ASCII character.

    Python classifies the characters outside ASCII with the Unicode
    database ([\w] keeps an accented letter, [lower()] maps a capital one),
    which is not modelled.  The definitions of [is_space], [is_word],
    [re_sub_punct], [strip] and [lower] below are those of Python on text
    for which [isascii] holds; a byte of any other character counts as
    neither a word character nor a blank and is left as it is by [lower].
    A statement whose conclusion depends on how such text is normalized
    carries the hypothesis [isascii]. *)
Fixpoint isascii (s : string) : bool :=
  match s with
  | EmptyString => true
  | String c s' => Nat.ltb (nat_of_ascii c) 128 && isascii s'
  end.

(** [\s] on ASCII text, and the ASCII characters removed by [strip()]. *)
Definition is_space (c : ascii) : bool :=
  in_range 9 13 c || in_range 28 32 c.

(** [\w] on ASCII text: letters, digits and the underscore. *)
Definition is_word (c : ascii) : bool :=
  in_range 48 57 c || in_range 65 90 c || in_range 97 122 c
  || Nat.eqb (nat_of_ascii c) 95.

(** [re.sub(r'[^\w\s]', '', s)] on ASCII text. *)
Definition re_sub_punct (s : string) : string :=
  filter_chars (fun c => is_word c || is_space c) s.

Fixpoint lstrip (s : string) : string :=
  match s with
  | EmptyString => EmptyString
  | String c s' => if is_space c then lstrip s' else s
  end.

Fixpoint rstrip (s : string) : string :=
  match s with
  | EmptyString => EmptyString
  | String c s' =>
      match rstrip s' with
      | EmptyString => if is_space c then EmptyString else String c EmptyString
      | r => String c r
      end
  end.

(** [s.strip()] *)
Definition strip (s : string) : string := rstrip (lstrip s).

Definition lower_char (c : ascii) : ascii :=
  if in_range 65 90 c then ascii_of_nat (nat_of_ascii c + 32) else c.

(** [s.lower()] on ASCII text. *)
Definition lower (s : string) : string := map_chars lower_char s.

(** [repr(l)] of a list of plain strings, as an f-string renders it. *)
Definition repr_list (l : list string) : string :=
  "[" ++ join ", " (map (fun s => "'" ++ s ++ "'") l) ++ "]".

(** Exceptions that the embedded code can raise. *)
Inductive Exc : Type :=
| ValueError
| TypeError
| AttributeError
| NameError (name : string).

(** The outcome of an expression that may raise. *)
Inductive Res (A : Type) : Type :=
| Ok (a : A)
| Raise (e : Exc).
Arguments Ok {A} a.
Arguments Raise {A} e.

End Py.
Import Py.

(** ** The label enumeration ([common/label.py])

    The module is not part of the sources at hand.  The code only relies on
    it being an [Enum] with string values that has the members
    [REFUSED_TO_ANSWER] and [REFUTED]; it is therefore taken as a
    parameter.  [members] is the definition order (the order of
    [for label in Label]). *)

Class LabelEnum (Label : Type) : Type := {
  members : list Label;
  value : Label -> string;
  REFUSED_TO_ANSWER : Label;
  REFUTED : Label;
  Label_eqb : Label -> Label -> bool;
  Label_eqb_eq : forall a b, Label_eqb a b = true <-> a = b;
  REFUSED_TO_ANSWER_member : In REFUSED_TO_ANSWER members;
  REFUTED_member : In REFUTED members;
}.

(** [Label(s)]: the member whose value is [s]; [None] stands for the
    [ValueError] that the enumeration raises otherwise. *)
Definition Label_of_value {Label} `{LabelEnum Label} (s : string) : option Label :=
  find (fun l => String.eqb (value l) s) members.

(** ** External services and the session state *)

(** One call to an external service. *)
Inductive Event : Type :=
| EvGenerate (prompt response : string)
| EvSearch (query result : string).

Definition is_search (e : Event) : bool :=
  match e with EvSearch _ _ => true | EvGenerate _ _ => false end.

(** The language model and the search backend, as transitions on the
    world.  Both may answer the same request differently at different
    times. *)
Record Services (W : Type) : Type := {
  model_generate : string -> W -> string * W;
  backend_search : string -> W -> string * W;
}.
Arguments model_generate {W}.
Arguments backend_search {W}.

(** The state threaded through a session: the outside world, the calls made
    so far (oldest first) and the [latest_reasoning] attribute of [Judge]. *)
Record St (W : Type) : Type := {
  world : W;
  trace : list Event;
  latest_reasoning : option string;
}.
Arguments world {W}.
Arguments trace {W}.
Arguments latest_reasoning {W}.
Arguments Build_St {W}.

Definition init_St {W} (w : W) : St W :=
  {| world := w; trace := []; latest_reasoning := None |}.

(** The number of backend searches in a trace. *)
Definition count_search (t : list Event) : nat := length (filter is_search t).

(** The queries sent to the search backend, oldest first. *)
Fixpoint issued_queries (t : list Event) : list string :=
  match t with
  | [] => []
  | EvSearch q _ :: t' => q :: issued_queries t'
  | EvGenerate _ _ :: t' => issued_queries t'
  end.

(** What a piece of the session adds to the trace. *)
Definition extends {W} (st st' : St W) (evs : list Event) : Prop :=
  trace st' = (trace st ++ evs)%list.

(** ** State monad *)

Definition M (W A : Type) : Type := St W -> A * St W.

Definition ret {W A} (a : A) : M W A := fun st => (a, st).

Definition bind {W A B} (m : M W A) (k : A -> M W B) : M W B :=
  fun st => let (a, st') := m st in k a st'.

Declare Scope session_scope.
Delimit Scope session_scope with session.
Notation "x <- m ;; k" := (bind m (fun x => k))
  (at level 100, m at next level, right associativity) : session_scope.
Notation "' p <- m ;; k" := (bind m (fun p => k))
  (at level 100, p pattern, m at next level, right associativity) : session_scope.
Open Scope session_scope.

Section Calls.
Context {W : Type} (svc : Services W).

(** [self.model.generate(prompt)] *)
Definition generate (prompt : string) : M W string :=
  fun st =>
    let (r, w) := model_generate svc prompt (world st) in
    (r, {| world := w;
           trace := trace st ++ [EvGenerate prompt r];
           latest_reasoning := latest_reasoning st |}).

(** [Searcher._call_api(query)]: the configured backend is run on the
    query; the three backends differ only in the service that answers. *)
Definition _call_api (search_query : string) : M W string :=
  fun st =>
    let (r, w) := backend_search svc search_query (world st) in
    (r, {| world := w;
           trace := trace st ++ [EvSearch search_query r];
           latest_reasoning := latest_reasoning st |}).

(** [self.latest_reasoning = response] *)
Definition set_latest_reasoning (response : string) : M W unit :=
  fun st =>
    (tt, {| world := world st;
            trace := trace st;
            latest_reasoning := Some response |}).

End Calls.

(** ** Parts of the repository outside the sources at hand

    [common/utils.py], [safe/prompts/prompt.py], [safe/config.py] and the
    function [extract_knowledge] are taken as parameters. *)

(** [searcher.SearchResult]; [result] is [None] for a discarded result. *)
Record SearchResult : Type := {
  query : string;
  result : option string;
}.

Record Deps (Label Doc : Type) : Type := {
  (* common/utils.py *)
  is_guardrail_hit : string -> bool;
  extract_last_code_span : string -> string;
  extract_first_square_brackets : string -> string;
  extract_first_code_block : string -> string;
  (* safe/searcher.py, as imported by judge.py *)
  extract_knowledge : list SearchResult -> string;
  (* safe/prompts/prompt.py, rendered with str(); the search prompt also
     takes the search engine and the kind of model, which are fixed for a
     session *)
  SearchPrompt : string -> string -> string -> string;
  SummarizePrompt : string -> string -> string;
  ReasonPrompt : string -> string -> option (list Label) -> string;
  JudgePrompt : Doc -> list Label -> string;
  (* safe/config.py *)
  max_steps : Z;
  max_retries : Z;
}.
Arguments is_guardrail_hit {Label Doc}.
Arguments extract_last_code_span {Label Doc}.
Arguments extract_first_square_brackets {Label Doc}.
Arguments extract_first_code_block {Label Doc}.
Arguments extract_knowledge {Label Doc}.
Arguments SearchPrompt {Label Doc}.
Arguments SummarizePrompt {Label Doc}.
Arguments ReasonPrompt {Label Doc}.
Arguments JudgePrompt {Label Doc}.
Arguments max_steps {Label Doc}.
Arguments max_retries {Label Doc}.

(** ** [safe/searcher.py] *)

Module Searcher.
Section Searcher.
Context {W Label Doc : Type} (svc : Services W) (deps : Deps Label Doc).

(** [[s.result for s in past_searches if s.result is not None]] *)
Fixpoint present_results (past_searches : list SearchResult) : list string :=
  match past_searches with
  | [] => []
  | s :: rest =>
      match result s with
      | Some r => r :: present_results rest
      | None => present_results rest
      end
  end.

(** [not next_search.result]: the result is [None] or the empty string. *)
Definition no_result (s : SearchResult) : bool :=
  match result s with
  | None => true
  | Some r => is_empty r
  end.

Definition mixer (claim query : string) : string :=
  "This is the CLAIM: '" ++ claim ++ "'. You have tried this QUERY: '" ++ query
  ++ "' but the search result was                 irrelevant to the claim. Change the QUERY to extract important knowledge about the CLAIM. Answer only with the new query: ".

Definition post_process_query (model_response : string) : M W string :=
  let instruction :=
    "Extract a simple sentence that I can use for a Google Search query from this string:" ++ nl in
  query <- generate svc (instruction ++ model_response) ;;
  (* the value of the re.sub call that follows is discarded *)
  ret (remove_char (ascii_of_nat 10) query).

Definition _maybe_get_next_search (claim : string) (past_searches : list SearchResult)
    (summarize : bool) : M W (option SearchResult) :=
  let past_results := present_results past_searches in
  let knowledge := join nl past_results in
  let knowledge := if is_empty knowledge then "N/A" else knowledge in
  let past_queries := map query past_searches in
  let past_queries_str := join nl past_queries in
  let past_queries_str := if is_empty past_queries_str then "N/A" else past_queries_str in
  let search_prompt := SearchPrompt deps claim knowledge past_queries_str in
  response <- generate svc search_prompt ;;
  let model_response := remove_char dquote response in
  let model_response :=
    if startswith model_response "I cannot" || startswith model_response "I'm sorry"
    then "[" ++ claim ++ "]"
    else model_response in
  let query := extract_first_code_block deps model_response in
  query <- (if is_empty query then post_process_query model_response else ret query) ;;
  query <- (if str_in query past_queries then generate svc (mixer claim query) else ret query) ;;
  api_result <- _call_api svc query ;;
  let result := if str_in api_result past_results then None else Some api_result in
  result <- (match result with
             | Some r =>
                 if summarize && (728 <? len r)
                 then summary <- generate svc (SummarizePrompt deps query r) ;; ret (Some summary)
                 else ret result
             | None => ret result
             end) ;;
  ret (Some {| query := query; result := result |}).

(** The prompt of [sufficient_knowledge] (its local [input]). *)
Definition sufficiency_input (claim : string) (past_searches : list SearchResult) : string :=
  let knowledge := join nl (present_results past_searches) in
  let knowledge := if is_empty knowledge then "N/A" else knowledge in
  let instruction :=
    "Given the following INFORMATION, determine if it is enough to conclusively decide "
    ++ "whether the CLAIM is true or false with high certainty. If the INFORMATION is sufficient, "
    ++ "respond 'sufficient'. Otherwise, respond 'insufficient'. "
    ++ "If you are in doubt or need more information, respond 'insufficient'. "
    ++ "Respond with only one word." in
  instruction ++ "\INFORMATION:" ++ nl ++ knowledge ++ "\CLAIM:" ++ claim.

Definition sufficient_knowledge (claim : string) (past_searches : list SearchResult)
    : M W bool :=
  model_decision <- generate svc (sufficiency_input claim past_searches) ;;
  if String.eqb (lower model_decision) "sufficient" then ret true else ret false.

(** The inner loop of [search]:
    [while not next_search and num_tries <= self.max_retries].  Every
    iteration increments [num_tries], so [fuel] iterations suffice as soon
    as [max_retries + 1 - num_tries <= fuel]. *)
Fixpoint next_search_loop (fuel : nat) (claim : string) (search_results : list SearchResult)
    (summarize : bool) (next_search : option SearchResult) (num_tries : Z)
    : M W (option SearchResult * Z) :=
  match next_search with
  | Some _ => ret (next_search, num_tries)
  | None =>
      if num_tries <=? max_retries deps then
        match fuel with
        | O => ret (next_search, num_tries)
        | S fuel' =>
            next_search <- _maybe_get_next_search claim search_results summarize ;;
            next_search_loop fuel' claim search_results summarize next_search (num_tries + 1)
        end
      else ret (next_search, num_tries)
  end.

(** One iteration of [for _ in range(self.max_steps)], up to the
    sufficiency test: the list after the iteration. *)
Definition search_step (claim : string) (summarize : bool)
    (search_results : list SearchResult) : M W (list SearchResult) :=
  '(next_search, num_tries) <-
    next_search_loop (Z.to_nat (max_retries deps + 1)) claim search_results summarize None 0 ;;
  match next_search with
  | None => ret search_results
  | Some s => if no_result s then ret search_results else ret (search_results ++ [s])%list
  end.

(** The remaining [steps] iterations of the outer loop. *)
Fixpoint search_loop (steps : nat) (claim : string) (limit_search summarize : bool)
    (search_results : list SearchResult) : M W (list SearchResult) :=
  match steps with
  | O => ret search_results
  | S steps' =>
      search_results <- search_step claim summarize search_results ;;
      stop <- (if limit_search then sufficient_knowledge claim search_results else ret false) ;;
      if stop then ret search_results
      else search_loop steps' claim limit_search summarize search_results
  end.

Definition search (claim : string) (limit_search summarize : bool)
    : M W (list SearchResult) :=
  search_loop (Z.to_nat (max_steps deps)) claim limit_search summarize [].

End Searcher.
End Searcher.

(** ** [safe/judge.py] *)

Module Judge.
Section Judge.
Context {W Label Doc : Type} `{LabelEnum Label}
        (svc : Services W) (deps : Deps Label Doc).
(** [self.classes] *)
Variable classes : list Label.

Record FinalAnswer : Type := {
  response : string;
  answer : string;
}.

Definition _extract_verdict (response : string) : Label :=
  let answer := extract_last_code_span deps response in
  let answer := lower (strip (re_sub_punct answer)) in
  if is_empty answer then REFUSED_TO_ANSWER
  else
    match Label_of_value answer with
    | Some verdict => verdict
    | None =>
        (* except ValueError: *)
        match find (fun c => contains (value c) answer) classes with
        | Some c => c
        | None => REFUSED_TO_ANSWER
        end
    end.

(** The verdict that [_generate_verdict] draws from a response. *)
Definition verdict_of (response : string) : Label :=
  if is_guardrail_hit deps response then REFUSED_TO_ANSWER
  else _extract_verdict response.

Definition _generate_verdict (prompt : string) : M W Label :=
  response <- generate svc prompt ;;
  _ <- set_latest_reasoning response ;;
  if is_guardrail_hit deps response then ret REFUSED_TO_ANSWER
  else ret (_extract_verdict response).

(** The loop of [judge]:
    [while (verdict := ...) == Label.REFUSED_TO_ANSWER].  The loop is left
    at the latest when [n_retries] exceeds [max_retries], so [fuel]
    further iterations suffice as soon as [max_retries - n_retries <= fuel]. *)
Fixpoint judge_loop (fuel : nat) (prompt : string) (n_retries : Z) : M W Label :=
  verdict <- _generate_verdict prompt ;;
  if Label_eqb verdict REFUSED_TO_ANSWER then
    let n_retries := n_retries + 1 in
    if max_retries deps <? n_retries then ret verdict
    else
      match fuel with
      | O => ret verdict
      | S fuel' => judge_loop fuel' prompt n_retries
      end
  else ret verdict.

Definition judge (doc : Doc) : M W Label :=
  let judge_prompt := JudgePrompt deps doc classes in
  judge_loop (Z.to_nat (max_retries deps)) judge_prompt 0.

Definition get_latest_reasoning : M W (option string) :=
  fun st => (latest_reasoning st, st).

Definition maybe_get_final_answer (claim : string) (evidence : list SearchResult)
    : M W (option FinalAnswer) :=
  let knowledge := extract_knowledge deps evidence in
  let reason_prompt := ReasonPrompt deps claim knowledge (Some classes) in
  model_response <- generate svc reason_prompt ;;
  if is_guardrail_hit deps model_response then
    ret (Some {| response := model_response; answer := "refused" |})
  else
    let answer := extract_first_square_brackets deps model_response in
    let answer := strip (re_sub_punct answer) in
    let valid_labels := map (fun label => lower (value label)) members in
    if negb (is_empty model_response) && str_in (lower answer) valid_labels then
      ret (Some {| response := model_response; answer := answer |})
    else
      let select :=
        "Respond with one word! From " ++ repr_list valid_labels
        ++ ", select the most fitting for the following string:" ++ nl in
      adjusted <- generate svc (select ++ model_response) ;;
      let adjusted_response := lower adjusted in
      let adjusted_response :=
        if negb (str_in adjusted_response valid_labels)
        then value REFUSED_TO_ANSWER
        else adjusted_response in
      ret (Some {| response := model_response; answer := adjusted_response |}).

(** The loop of [reason]:
    [while not final_answer and num_tries <= self.max_retries]. *)
Fixpoint reason_loop (fuel : nat) (claim : string) (evidence : list SearchResult)
    (final_answer : option FinalAnswer) (num_tries : Z)
    : M W (option FinalAnswer * Z) :=
  match final_answer with
  | Some _ => ret (final_answer, num_tries)
  | None =>
      if num_tries <=? max_retries deps then
        match fuel with
        | O => ret (final_answer, num_tries)
        | S fuel' =>
            let num_tries := num_tries + 1 in
            final_answer <- maybe_get_final_answer claim evidence ;;
            reason_loop fuel' claim evidence final_answer num_tries
        end
      else ret (final_answer, num_tries)
  end.

Definition reason (claim : string) (evidence : list SearchResult)
    : M W (Res (Label * string)) :=
  '(final_answer, num_tries) <-
    reason_loop (Z.to_nat (max_retries deps + 1)) claim evidence None 0 ;;
  match final_answer with
  | None => ret (Ok (REFUTED, ""))
  | Some final_answer =>
      match Label_of_value (lower (answer final_answer)) with
      | Some predicted_label => ret (Ok (predicted_label, response final_answer))
      | None => ret (Raise ValueError)
      end
  end.

End Judge.
End Judge.

(** ** [safe/reasoner.py]

    The import block of the file holds the two sides of an unresolved merge
    (one imports [red], the other [ReasonPrompt]); both names are taken as
    bound.  The name [labels] is bound nowhere in the module. *)

Module Reasoner.
Section Reasoner.
Context {W Label Doc : Type} `{LabelEnum Label}
        (svc : Services W) (deps : Deps Label Doc).

Record FinalAnswer : Type := {
  response : string;
  answer : string;
}.

(** [[search.result for search in evidence]] handed to [str.join], which
    raises [TypeError] on an item that is [None]. *)
Fixpoint results_to_join (evidence : list SearchResult) : Res (list string) :=
  match evidence with
  | [] => Ok []
  | s :: rest =>
      match result s, results_to_join rest with
      | Some r, Ok rs => Ok (r :: rs)
      | _, _ => Raise TypeError
      end
  end.

Definition maybe_get_final_answer (claim : string) (evidence : list SearchResult)
    : M W (Res (option FinalAnswer)) :=
  match results_to_join evidence with
  | Raise e => ret (Raise e)
  | Ok results =>
      let knowledge := join nl results in
      let reason_prompt := ReasonPrompt deps claim knowledge None in
      model_response <- generate svc reason_prompt ;;
      if startswith model_response "I cannot" then
        ret (Ok (Some {| response := model_response; answer := "Refused" |}))
      else
        let answer := extract_first_square_brackets deps model_response in
        let answer := strip (re_sub_punct answer) in
        let valid_labels := map value members in
        if negb (is_empty model_response) && str_in answer valid_labels then
          ret (Ok (Some {| response := model_response; answer := answer |}))
        else
          (* the f-string assigned to [select] evaluates the unbound name
             [labels]; no later statement of the branch is reached *)
          ret (Raise (NameError "labels"))
  end.

(** The loop of [reason]; an exception leaves it at once. *)
Fixpoint reason_loop (fuel : nat) (claim : string) (evidence : list SearchResult)
    (final_answer : option FinalAnswer) (num_tries : Z)
    : M W (Res (option FinalAnswer * Z)) :=
  match final_answer with
  | Some _ => ret (Ok (final_answer, num_tries))
  | None =>
      if num_tries <=? max_retries deps then
        match fuel with
        | O => ret (Ok (final_answer, num_tries))
        | S fuel' =>
            let num_tries := num_tries + 1 in
            r <- maybe_get_final_answer claim evidence ;;
            match r with
            | Raise e => ret (Raise e)
            | Ok final_answer => reason_loop fuel' claim evidence final_answer num_tries
            end
        end
      else ret (Ok (final_answer, num_tries))
  end.

Definition reason (claim : string) (evidence : list SearchResult)
    : M W (Res (Label * string)) :=
  r <- reason_loop (Z.to_nat (max_retries deps + 1)) claim evidence None 0 ;;
  match r with
  | Raise e => ret (Raise e)
  | Ok (final_answer, num_tries) =>
      match final_answer with
      | None =>
          (* the error is printed, then [final_answer.answer] is read *)
          ret (Raise AttributeError)
      | Some final_answer =>
          match Label_of_value (answer final_answer) with
          | Some predicted_label => ret (Ok (predicted_label, response final_answer))
          | None => ret (Raise ValueError)
          end
      end
  end.

End Reasoner.
End Reasoner.

(** ** A concrete instance

    The theorems below hold for every label enumeration, every
    implementation of the missing helpers and every behaviour of the two
    services.  This instance is used to run the code on concrete sessions. *)

Module Demo.

(** Modelled from the spec: [common/label.py] is missing; the members are
    the four that the data model of the spec lists, in that order.  The
    spec does not give their values; the lowercase names are used. *)
Inductive DemoLabel : Type :=
| L_SUPPORTED
| L_REFUTED
| L_NOT_ENOUGH_INFO
| L_REFUSED_TO_ANSWER.

Definition demo_value (l : DemoLabel) : string :=
  match l with
  | L_SUPPORTED => "supported"
  | L_REFUTED => "refuted"
  | L_NOT_ENOUGH_INFO => "not enough info"
  | L_REFUSED_TO_ANSWER => "refused to answer"
  end.

Definition demo_eqb (a b : DemoLabel) : bool :=
  match a, b with
  | L_SUPPORTED, L_SUPPORTED
  | L_REFUTED, L_REFUTED
  | L_NOT_ENOUGH_INFO, L_NOT_ENOUGH_INFO
  | L_REFUSED_TO_ANSWER, L_REFUSED_TO_ANSWER => true
  | _, _ => false
  end.

#[export] Instance demo_labels : LabelEnum DemoLabel.
Proof.
  refine {| members := [L_SUPPORTED; L_REFUTED; L_NOT_ENOUGH_INFO; L_REFUSED_TO_ANSWER];
            value := demo_value;
            REFUSED_TO_ANSWER := L_REFUSED_TO_ANSWER;
            REFUTED := L_REFUTED;
            Label_eqb := demo_eqb |}; simpl; auto.
  intros [] []; simpl; split; congruence.
Defined.

(** The text after the first occurrence of [p]. *)
Fixpoint after_first (p s : string) : option string :=
  if String.prefix p s then Some (substring (String.length p) (String.length s) s)
  else
    match s with
    | EmptyString => None
    | String _ s' => after_first p s'
    end.

(** The text before the first occurrence of [p]. *)
Fixpoint before_first (p s : string) : option string :=
  if String.prefix p s then Some EmptyString
  else
    match s with
    | EmptyString => None
    | String c s' =>
        match before_first p s' with
        | Some t => Some (String c t)
        | None => None
        end
    end.

(** The first span opened by [o] and closed by [c]; empty if there is none. *)
Definition first_between (o c s : string) : string :=
  match after_first o s with
  | Some t => match before_first c t with Some u => u | None => "" end
  | None => ""
  end.

Definition reverse (s : string) : string :=
  string_of_list_ascii (rev (list_ascii_of_string s)).

(** Modelled from the spec: [common/utils.py] is missing; a guardrail hit
    is a response that starts with a refusal prefix such as "I cannot" or
    "I'm sorry". *)
Definition demo_is_guardrail_hit (r : string) : bool :=
  startswith r "I cannot" || startswith r "I'm sorry".

(** Modelled from the spec: [common/utils.py] is missing; the first
    bracket-delimited span of the response. *)
Definition demo_extract_first_square_brackets (r : string) : string :=
  first_between "[" "]" r.

(** Modelled from the spec: [common/utils.py] is missing; the last code
    span of the response. *)
Definition demo_extract_last_code_span (r : string) : string :=
  reverse (first_between "`" "`" (reverse r)).

(** Modelled from the spec: [common/utils.py] is missing; the first fenced
    code block of the response. *)
Definition demo_extract_first_code_block (r : string) : string :=
  strip (first_between "```" "```" r).

(** Modelled from the spec: [extract_knowledge] is missing from
    [safe/searcher.py]; the newline-joined present results. *)
Definition demo_extract_knowledge (evidence : list SearchResult) : string :=
  join nl (Searcher.present_results evidence).

(** Modelled from the spec: [safe/prompts/prompt.py] and [safe/config.py]
    are missing; the prompts list their arguments, the two budgets are
    arguments of the instance. *)
Definition demo_deps (steps retries : Z) : Deps DemoLabel string := {|
  is_guardrail_hit := demo_is_guardrail_hit;
  extract_last_code_span := demo_extract_last_code_span;
  extract_first_square_brackets := demo_extract_first_square_brackets;
  extract_first_code_block := demo_extract_first_code_block;
  extract_knowledge := demo_extract_knowledge;
  SearchPrompt := fun claim knowledge past_queries =>
    "CLAIM: " ++ claim ++ nl ++ "KNOWLEDGE: " ++ knowledge ++ nl
    ++ "PAST QUERIES: " ++ past_queries;
  SummarizePrompt := fun query result =>
    "QUERY: " ++ query ++ nl ++ "RESULT: " ++ result;
  ReasonPrompt := fun claim knowledge classes =>
    "CLAIM: " ++ claim ++ nl ++ "KNOWLEDGE: " ++ knowledge ++ nl
    ++ "LABELS: "
    ++ match classes with
       | Some cs => repr_list (map demo_value cs)
       | None => ""
       end;
  JudgePrompt := fun doc classes =>
    "DOCUMENT: " ++ doc ++ nl ++ "LABELS: " ++ repr_list (map demo_value classes);
  max_steps := steps;
  max_retries := retries;
|}.

(** A scripted world: the model answers with the next line of a script
    (and with the empty string once the script is over); the backend is a
    function of the query. *)
Definition scripted (api : string -> string) : Services (list string) := {|
  model_generate := fun _ w =>
    match w with
    | [] => ("", [])
    | r :: w' => (r, w')
    end;
  backend_search := fun q w => (api q, w);
|}.

(** A model that gives the same answer to every prompt; the world counts
    the calls. *)
Definition constant_model (r : string) : Services nat := {|
  model_generate := fun _ n => (r, S n);
  backend_search := fun _ n => ("", S n);
|}.

Fixpoint repeat_string (n : nat) (s : string) : string :=
  match n with
  | O => ""
  | S n' => s ++ repeat_string n' s
  end.

(** The claim of the scenarios of the spec. *)
Definition sky_claim : string := "The sky is green.".

(** A backend that answers every query with its own short text. *)
Definition echo_api (q : string) : string := "Result for " ++ q.

(** A backend that answers every query with the same text of 800
    characters, more than the summarization threshold. *)
Definition long_api (q : string) : string := repeat_string 800 "x".

(** A backend that finds nothing. *)
Definition empty_api (q : string) : string := "".

End Demo.

(** ** Vocabulary of the further properties *)

Definition is_generate (e : Event) : bool :=
  match e with EvGenerate _ _ => true | EvSearch _ _ => false end.

(** The number of model generations in a trace. *)
Definition count_generate (t : list Event) : nat := length (filter is_generate t).

(** The answers of the model to the [mixer] prompt are new queries in the
    trace [t]: whenever the model is asked to change a query that was sent
    to the backend before, its answer is not one of the queries sent
    before.  [seen] holds the queries sent so far, oldest first. *)
Fixpoint mixer_answers_fresh (claim : string) (seen : list string) (t : list Event) : bool :=
  match t with
  | [] => true
  | EvSearch q _ :: t' => mixer_answers_fresh claim (seen ++ [q]) t'
  | EvGenerate prompt response :: t' =>
      (if existsb (fun stale => String.eqb prompt (Searcher.mixer claim stale)) seen
       then negb (str_in response seen)
       else true)
      && mixer_answers_fresh claim seen t'
  end.


(** Every value of the enumeration is written in lower case. *)
Definition lowercase_values (Label : Type) `{LabelEnum Label} : Prop :=
  forall l : Label, In l members -> lower (value l) = value l.

(** No two members of the enumeration have the same value (members with
    equal values are aliases of one member in a Python [Enum]). *)
Definition unique_values (Label : Type) `{LabelEnum Label} : Prop :=
  forall l l' : Label, In l members -> In l' members -> value l = value l' -> l = l'.

(** Every character of [s] satisfies [p]. *)
Fixpoint all_chars (p : ascii -> bool) (s : string) : bool :=
  match s with
  | EmptyString => true
  | String c s' => p c && all_chars p s'
  end.

(** ** Exceptions and outcomes of [common/modeling.py] and [modules/actor.py] *)

Module Exn.
Inductive t : Type :=
| ValueError
| IndexError.
End Exn.

(** The outcome of a call that may raise. *)
Inductive Outcome (A : Type) : Type :=
| Returns (a : A)
| Raises (e : Exn.t).
Arguments Returns {A} a.
Arguments Raises {A} e.

(** ** [common/modeling.py] *)

Module Modeling.

(** [s.split(sep)] for a one-character separator: the parts between the
    separators, a single part when there is no separator. *)
Fixpoint split_char (sep : ascii) (s : string) : list string :=
  match s with
  | EmptyString => [EmptyString]
  | String c s' =>
      if Ascii.eqb c sep then EmptyString :: split_char sep s'
      else
        match split_char sep s' with
        | [] => [String c EmptyString]
        | part :: parts => String c part :: parts
        end
  end.

Definition colon : ascii := ascii_of_nat 58.

(** [s] contains no colon. *)
Definition no_colon (s : string) : bool :=
  all_chars (fun c => negb (Ascii.eqb c colon)) s.

(** A row of the table [AVAILABLE_MODELS], which is read from
    [common/available_models.csv]; the file is not part of the sources at
    hand, so the table is a parameter. *)
Record ModelRow : Type := {
  Shorthand : string;
  Platform : string;
  Specifier : string;
  Context_window : Z;
}.

(** [l.iloc[0]] on the selected rows: the first one, [IndexError] if the
    selection is empty. *)
Definition iloc0 {A} (selected : list A) : Outcome A :=
  match selected with
  | [] => Raises Exn.IndexError
  | a :: _ => Returns a
  end.

Section Names.
Variable AVAILABLE_MODELS : list ModelRow.

Definition model_full_name_to_shorthand (name : string) : Outcome string :=
  match split_char colon name with
  | [platform; specifier] =>
      let selected :=
        filter (fun row => String.eqb (Platform row) platform
                           && String.eqb (Specifier row) specifier)
               AVAILABLE_MODELS in
      match selected with
      | [] => Raises Exn.ValueError
      | row :: _ => Returns (Shorthand row)
      end
  | _ =>
      (* the unpacking fails; the bare [except] raises ValueError *)
      Raises Exn.ValueError
  end.

Definition model_shorthand_to_full_name (shorthand : string) : Outcome string :=
  let selected := filter (fun row => String.eqb (Shorthand row) shorthand) AVAILABLE_MODELS in
  match iloc0 (map Platform selected) with
  | Raises e => Raises e
  | Returns platform =>
      match iloc0 (map Specifier selected) with
      | Raises e => Raises e
      | Returns specifier => Returns (platform ++ ":" ++ specifier)
      end
  end.

Definition get_model_context_window (name : string) : Outcome Z :=
  let resolved :=
    if negb (str_in name (map Shorthand AVAILABLE_MODELS))
    then model_full_name_to_shorthand name
    else Returns name in
  match resolved with
  | Raises e => Raises e
  | Returns name =>
      iloc0 (map Context_window
               (filter (fun row => String.eqb (Shorthand row) name) AVAILABLE_MODELS))
  end.

End Names.

(** [Model.generate].  The language model behind it is external:
    [submit] is one attempt on the remote model, [None] when one of the
    caught errors ([OpenAIError], [TimeoutError], [RetryError],
    [AnthropicError]) was raised, an attempt that raises anything else
    being outside the model; [pipeline] is the text that the local
    pipeline generates.  [add_format] and the template step of
    [handle_prompt] are not part of the sources at hand. *)
Record LanguageModel (W : Type) : Type := {
  open_source : bool;
  add_format : string -> string;
  prepare_prompt : string -> string;
  apply_chat_template : string -> option string;
  pipeline : string -> W -> string * W;
  submit : string -> W -> option string * W;
}.
Arguments open_source {W}.
Arguments add_format {W}.
Arguments prepare_prompt {W}.
Arguments apply_chat_template {W}.
Arguments pipeline {W}.
Arguments submit {W}.

Section Generate.
Context {W : Type} (lm : LanguageModel W).

(** [Model.handle_prompt]: the prompt in the chat template, the prepared
    prompt itself if the template raises. *)
Definition handle_prompt (original_prompt : string) : string :=
  let original_prompt := prepare_prompt lm original_prompt in
  match apply_chat_template lm original_prompt with
  | Some formatted_prompt => formatted_prompt
  | None => original_prompt
  end.

(** [s[n:]] for [0 <= n]. *)
Definition slice_from (n : nat) (s : string) : string :=
  substring n (String.length s - n) s.

(** The loop [while not response and num_attempts < max_attempts]; every
    iteration increments [num_attempts], so [fuel] iterations suffice as
    soon as [max_attempts - num_attempts <= fuel]. *)
Fixpoint attempt_loop (fuel : nat) (prompt : string) (max_attempts : Z)
    (response : string) (num_attempts : Z) (w : W) : (string * Z) * W :=
  if is_empty response && (num_attempts <? max_attempts) then
    match fuel with
    | O => ((response, num_attempts), w)
    | S fuel' =>
        let (outcome, w) := submit lm prompt w in
        let response :=
          match outcome with
          | Some text => text
          | None => response
          end in
        attempt_loop fuel' prompt max_attempts response (num_attempts + 1) w
    end
  else ((response, num_attempts), w).

Definition generate (prompt : string) (max_attempts : Z) (w : W) : string * W :=
  let prompt := add_format lm prompt in
  if open_source lm then
    let prompt := handle_prompt prompt in
    let (generated_text, w) := pipeline lm prompt w in
    (slice_from (String.length prompt) generated_text, w)
  else
    let '((response, num_attempts), w) :=
      attempt_loop (Z.to_nat max_attempts) prompt max_attempts "" 0 w in
    (response, w).

(** The outcomes of [n] attempts in a row, whatever they return. *)
Fixpoint attempts (n : nat) (prompt : string) (w : W) : list (option string) * W :=
  match n with
  | O => ([], w)
  | S n' =>
      let (outcome, w) := submit lm prompt w in
      let (rest, w) := attempts n' prompt w in
      (outcome :: rest, w)
  end.

End Generate.

(** An attempt that gives no response: an error, or an empty text. *)
Definition no_response (outcome : option string) : bool :=
  match outcome with
  | None => true
  | Some text => is_empty text
  end.

End Modeling.

(** [FakeModel] of [common/modeling.py]: the fields [static_response] and
    [sequential_responses]; the state is [sequential_response_idx]. *)
Module FakeModel.

Record Fields : Type := {
  static_response : string;
  sequential_responses : option (list string);
}.

(** [l[i]] for a list and an integer: negative indices count from the
    end, an index outside the list raises [IndexError]. *)
Definition list_index (l : list string) (i : Z) : Outcome string :=
  let n := Z.of_nat (length l) in
  if (0 <=? i) && (i <? n) then Returns (nth (Z.to_nat i) l EmptyString)
  else if (- n <=? i) && (i <? 0) then Returns (nth (Z.to_nat (n + i)) l EmptyString)
  else Raises Exn.IndexError.

Definition generate (self : Fields) (sequential_response_idx : Z)
    : Outcome string * Z :=
  if negb (is_empty (static_response self)) then
    (Returns (static_response self), sequential_response_idx)
  else
    match sequential_responses self with
    | Some (first :: others) =>
        let responses := first :: others in
        let response :=
          list_index responses
            (sequential_response_idx mod Z.of_nat (length responses)) in
        match response with
        | Raises e => (Raises e, sequential_response_idx)
        | Returns r => (Returns r, sequential_response_idx + 1)
        end
    | _ => (Returns EmptyString, sequential_response_idx)
    end.

End FakeModel.


(** ** [modules/actor.py] *)

Module Actor.
Section Actor.
(** [Action], [Tool], [Evidence], [FCDocument] and [ResultSummarizer] are
    declared outside the sources at hand.  [ActionType] stands for the
    class of an action ([type(action)]); a tool lists the classes it
    handles, performs an action and can be reset; the summarizer turns
    the results of a tool into summarized results. *)
Context {W Action ActionType Result Doc : Type}.
Variable type_of : Action -> ActionType.
Variable ActionType_eqb : ActionType -> ActionType -> bool.

Record Tool : Type := {
  actions : list ActionType;
  tool_perform : Action -> W -> list Result * W;
  tool_reset : W -> W;
}.

Record Evidence : Type := {
  summary : string;
  results : list Result;
}.

Variable tools : list Tool.
Variable summarize : list Result -> Doc -> W -> list Result * W.

Definition get_corresponding_tool_for_action (action : Action) : Outcome Tool :=
  match find (fun tool => existsb (ActionType_eqb (type_of action)) (actions tool)) tools with
  | Some tool => Returns tool
  | None => Raises Exn.ValueError
  end.

Definition _perform_single (action : Action) (doc : Doc) (w : W) : Outcome Evidence * W :=
  match get_corresponding_tool_for_action action with
  | Raises e => (Raises e, w)
  | Returns tool =>
      let (results, w) := tool_perform tool action w in
      let (results, w) := summarize results doc w in
      let summary := EmptyString in
      (Returns {| summary := summary; results := results |}, w)
  end.

(** The loop of [perform], from the evidence gathered so far. *)
Fixpoint perform_loop (todo : list Action) (doc : Doc) (all_evidence : list Evidence) (w : W)
    : Outcome (list Evidence) * W :=
  match todo with
  | [] => (Returns all_evidence, w)
  | action :: rest =>
      match _perform_single action doc w with
      | (Raises e, w) => (Raises e, w)
      | (Returns evidence, w) => perform_loop rest doc (all_evidence ++ [evidence]) w
      end
  end.

Definition perform (actions : list Action) (doc : Doc) (w : W) : Outcome (list Evidence) * W :=
  perform_loop actions doc [] w.

Definition reset (w : W) : W :=
  fold_left (fun w tool => tool_reset tool w) tools w.

End Actor.
End Actor.

(** ** Concrete instances for the further properties *)

Module DemoMore.
Import Modeling.

(** An example of the table of models: the two full names are those that
    [run.py] uses; shorthands and context windows are examples. *)
Definition example_models : list ModelRow := [
  {| Shorthand := "gpt_35"; Platform := "OPENAI"; Specifier := "gpt-3.5-turbo-0125";
     Context_window := 16385 |};
  {| Shorthand := "llama3_8b"; Platform := "huggingface";
     Specifier := "meta-llama/Meta-Llama-3-8B-Instruct"; Context_window := 8192 |}
].

(** A remote model whose attempts follow a script ([None] is a caught
    error), and that fails once the script is over. *)
Definition scripted_remote : LanguageModel (list (option string)) := {|
  open_source := false;
  add_format := fun prompt => prompt;
  prepare_prompt := fun prompt => prompt;
  apply_chat_template := fun _ => None;
  pipeline := fun _ w => (EmptyString, w);
  submit := fun _ w =>
    match w with
    | [] => (None, [])
    | outcome :: w' => (outcome, w')
    end;
|}.


Definition example_fake : FakeModel.Fields := {|
  FakeModel.static_response := "";
  FakeModel.sequential_responses := Some ["insufficient"; "sufficient"; "supported"];
|}.

(** Two kinds of action and two tools; a tool appends results to the
    world, which is the list of the actions performed so far. *)
Inductive ExampleType : Type := WebSearch | FaceRecognition.

Definition example_type_eqb (a b : ExampleType) : bool :=
  match a, b with
  | WebSearch, WebSearch | FaceRecognition, FaceRecognition => true
  | _, _ => false
  end.

Definition example_type_of (action : ExampleType * string) : ExampleType := fst action.

Definition searcher_tool : @Actor.Tool (list string) (ExampleType * string) ExampleType string := {|
  Actor.actions := [WebSearch];
  Actor.tool_perform := fun action w => (["result for " ++ snd action], (w ++ [snd action])%list);
  Actor.tool_reset := fun _ => [];
|}.

Definition example_summarize (results : list string) (doc : string) (w : list string)
    : list string * list string := (results, w).

End DemoMore.

(** * Properties *)

(** ** Traces *)

Lemma issued_queries_app : forall t1 t2,
  issued_queries (t1 ++ t2) = (issued_queries t1 ++ issued_queries t2)%list.
Proof.
  induction t1 as [|e t1 IH]; intros t2; simpl; [reflexivity|].
  destruct e; simpl; rewrite IH; reflexivity.
Qed.

Lemma count_search_app : forall t1 t2,
  count_search (t1 ++ t2) = (count_search t1 + count_search t2)%nat.
Proof.
  intros t1 t2. unfold count_search. rewrite filter_app, length_app. reflexivity.
Qed.

Lemma count_search_issued : forall t, count_search t = length (issued_queries t).
Proof.
  induction t as [|e t IH]; [reflexivity|].
  destruct e; unfold count_search in *; simpl; rewrite IH; reflexivity.
Qed.

Lemma extends_refl : forall W (st : St W), extends st st [].
Proof. intros. unfold extends. rewrite app_nil_r. reflexivity. Qed.

Lemma extends_trans : forall W (st1 st2 st3 : St W) e1 e2,
  extends st1 st2 e1 -> extends st2 st3 e2 -> extends st1 st3 (e1 ++ e2).
Proof.
  unfold extends. intros W st1 st2 st3 e1 e2 H1 H2.
  rewrite H2, H1, app_assoc. reflexivity.
Qed.

Section CallFacts.
Context {W : Type} (svc : Services W).

Lemma generate_extends : forall prompt st r st',
  generate svc prompt st = (r, st') ->
  extends st st' [EvGenerate prompt r]
  /\ r = fst (model_generate svc prompt (world st))
  /\ latest_reasoning st' = latest_reasoning st.
Proof.
  unfold generate, extends. intros prompt st r st' Hg.
  destruct (model_generate svc prompt (world st)) as [r0 w0].
  inversion Hg; subst; simpl. auto.
Qed.

Lemma _call_api_extends : forall q st r st',
  _call_api svc q st = (r, st') -> extends st st' [EvSearch q r].
Proof.
  unfold _call_api, extends. intros q st r st' Hc.
  destruct (backend_search svc q (world st)) as [r0 w0].
  inversion Hc; subst; simpl. reflexivity.
Qed.

End CallFacts.

(** Splits the next step of a monadic computation in hypothesis [H]. *)
Ltac bind_step H x st Hx :=
  unfold bind in H at 1;
  match type of H with
  | (let (_, _) := ?m ?s in _) = _ =>
      destruct (m s) as [x st] eqn:Hx
  end.

(** ** The loops and their iteration bounds *)

Section Fuel.
Context {W Label Doc : Type} `{LabelEnum Label}
        (svc : Services W) (deps : Deps Label Doc) (classes : list Label).

(** The loops are defined by recursion on a number of iterations that is
    computed from the budget.  That number is never the reason why a loop
    stops: any larger number gives the same run. *)

Lemma next_search_loop_fuel : forall fuel k claim past summarize next num_tries st,
  max_retries deps + 1 - num_tries <= Z.of_nat fuel ->
  Searcher.next_search_loop svc deps (fuel + k) claim past summarize next num_tries st
  = Searcher.next_search_loop svc deps fuel claim past summarize next num_tries st.
Proof.
  induction fuel as [|fuel IH]; intros k claim past summarize next num_tries st Hfuel.
  - destruct next as [s|]; [destruct k; reflexivity|].
    assert ((num_tries <=? max_retries deps) = false) as Hguard by (apply Z.leb_gt; lia).
    destruct k; simpl; rewrite Hguard; reflexivity.
  - simpl. destruct next as [s|]; [reflexivity|].
    destruct (num_tries <=? max_retries deps); [|reflexivity].
    unfold bind.
    destruct (Searcher._maybe_get_next_search svc deps claim past summarize st) as [r st1].
    apply IH. lia.
Qed.

Lemma judge_reason_loop_fuel : forall fuel k claim evidence final_answer num_tries st,
  max_retries deps + 1 - num_tries <= Z.of_nat fuel ->
  Judge.reason_loop svc deps classes (fuel + k) claim evidence final_answer num_tries st
  = Judge.reason_loop svc deps classes fuel claim evidence final_answer num_tries st.
Proof.
  induction fuel as [|fuel IH]; intros k claim evidence final_answer num_tries st Hfuel.
  - destruct final_answer as [fa|]; [destruct k; reflexivity|].
    assert ((num_tries <=? max_retries deps) = false) as Hguard by (apply Z.leb_gt; lia).
    destruct k; simpl; rewrite Hguard; reflexivity.
  - simpl. destruct final_answer as [fa|]; [reflexivity|].
    destruct (num_tries <=? max_retries deps); [|reflexivity].
    unfold bind.
    destruct (Judge.maybe_get_final_answer svc deps classes claim evidence st) as [r st1].
    apply IH. lia.
Qed.

Lemma reasoner_reason_loop_fuel : forall fuel k claim evidence final_answer num_tries st,
  max_retries deps + 1 - num_tries <= Z.of_nat fuel ->
  Reasoner.reason_loop svc deps (fuel + k) claim evidence final_answer num_tries st
  = Reasoner.reason_loop svc deps fuel claim evidence final_answer num_tries st.
Proof.
  induction fuel as [|fuel IH]; intros k claim evidence final_answer num_tries st Hfuel.
  - destruct final_answer as [fa|]; [destruct k; reflexivity|].
    assert ((num_tries <=? max_retries deps) = false) as Hguard by (apply Z.leb_gt; lia).
    destruct k; simpl; rewrite Hguard; reflexivity.
  - simpl. destruct final_answer as [fa|]; [reflexivity|].
    destruct (num_tries <=? max_retries deps); [|reflexivity].
    unfold bind.
    destruct (Reasoner.maybe_get_final_answer svc deps claim evidence st) as [[r|e] st1];
      [|reflexivity].
    apply IH. lia.
Qed.

Lemma judge_loop_fuel : forall fuel k prompt n_retries st,
  max_retries deps - n_retries <= Z.of_nat fuel ->
  Judge.judge_loop svc deps classes (fuel + k) prompt n_retries st
  = Judge.judge_loop svc deps classes fuel prompt n_retries st.
Proof.
  induction fuel as [|fuel IH]; intros k prompt n_retries st Hfuel.
  - assert ((max_retries deps <? n_retries + 1) = true) as Hguard by (apply Z.ltb_lt; lia).
    destruct k; simpl; unfold bind;
      destruct (Judge._generate_verdict svc deps classes prompt st) as [v st1];
      destruct (Label_eqb v REFUSED_TO_ANSWER); rewrite ?Hguard; reflexivity.
  - simpl. unfold bind.
    destruct (Judge._generate_verdict svc deps classes prompt st) as [v st1].
    destruct (Label_eqb v REFUSED_TO_ANSWER); [|reflexivity].
    destruct (max_retries deps <? n_retries + 1) eqn:Hguard; [reflexivity|].
    apply IH. lia.
Qed.

End Fuel.

(** ** Searcher *)

Section SearcherFacts.
Context {W Label Doc : Type} (svc : Services W) (deps : Deps Label Doc).

Local Abbreviation next_search := (Searcher._maybe_get_next_search svc deps).
Local Abbreviation next_search_loop := (Searcher.next_search_loop svc deps).
Local Abbreviation search_step := (Searcher.search_step svc deps).
Local Abbreviation search_loop := (Searcher.search_loop svc deps).
Local Abbreviation search := (Searcher.search svc deps).
Local Abbreviation sufficient_knowledge := (Searcher.sufficient_knowledge svc).

(** One call of [_maybe_get_next_search] returns a [SearchResult] and
    sends exactly one query, the one of the result, to the backend. *)
Lemma next_search_returns : forall claim past summarize st,
  exists s st' evs,
    next_search claim past summarize st = (Some s, st')
    /\ extends st st' evs
    /\ issued_queries evs = [query s].
Proof.
  intros claim past summarize st.
  destruct (next_search claim past summarize st) as [r st'] eqn:Hrun.
  unfold Searcher._maybe_get_next_search in Hrun.
  bind_step Hrun response st1 H1.
  apply generate_extends in H1. destruct H1 as (E1 & _ & _).
  bind_step Hrun q1 st2 H2.
  assert (exists e2, extends st1 st2 e2 /\ issued_queries e2 = []) as (e2 & E2 & I2).
  { destruct (is_empty _) in H2.
    - unfold Searcher.post_process_query in H2.
      bind_step H2 q0 st0 H0. apply generate_extends in H0.
      destruct H0 as (E0 & _ & _).
      unfold ret in H2. inversion H2; subst. eauto.
    - unfold ret in H2. inversion H2; subst.
      exists []. split; [apply extends_refl | reflexivity]. }
  bind_step Hrun q2 st3 H3.
  assert (exists e3, extends st2 st3 e3 /\ issued_queries e3 = []) as (e3 & E3 & I3).
  { destruct (str_in _ _) in H3.
    - apply generate_extends in H3. destruct H3 as (E & _ & _). eauto.
    - unfold ret in H3. inversion H3; subst.
      exists []. split; [apply extends_refl | reflexivity]. }
  bind_step Hrun api st4 H4.
  apply _call_api_extends in H4.
  bind_step Hrun res st5 H5.
  assert (exists e5, extends st4 st5 e5 /\ issued_queries e5 = []) as (e5 & E5 & I5).
  { destruct (if str_in api _ then None else Some api) as [r0|].
    - destruct (summarize && _)%bool.
      + bind_step H5 sm st0 H0. apply generate_extends in H0.
        destruct H0 as (E & _ & _).
        unfold ret in H5. inversion H5; subst. eauto.
      + unfold ret in H5. inversion H5; subst.
        exists []. split; [apply extends_refl | reflexivity].
    - unfold ret in H5. inversion H5; subst.
      exists []. split; [apply extends_refl | reflexivity]. }
  unfold ret in Hrun. inversion Hrun; subst.
  eexists _, _, _. split; [reflexivity|]. split.
  - eapply extends_trans; [exact E1|].
    eapply extends_trans; [exact E2|].
    eapply extends_trans; [exact E3|].
    eapply extends_trans; [exact H4|exact E5].
  - rewrite !issued_queries_app, I2, I3, I5. reflexivity.
Qed.

(** The inner loop, whatever the budget: either it never calls
    [_maybe_get_next_search] and leaves [None], or it calls it once. *)
Lemma next_search_loop_cases : forall fuel claim past summarize num_tries st r n st',
  next_search_loop fuel claim past summarize None num_tries st = (r, n, st') ->
  (r = None /\ st' = st /\ n = num_tries)
  \/ (exists s, next_search claim past summarize st = (Some s, st')
                /\ r = Some s /\ n = num_tries + 1).
Proof.
  intros fuel claim past summarize num_tries st r n st' Hrun.
  destruct fuel as [|fuel]; simpl in Hrun.
  - left. destruct (num_tries <=? _); unfold ret in Hrun; inversion Hrun; auto.
  - destruct (num_tries <=? _).
    + right.
      destruct (next_search_returns claim past summarize st) as (s & st1 & evs & Hs & _).
      unfold bind in Hrun. rewrite Hs in Hrun.
      destruct fuel; simpl in Hrun; unfold ret in Hrun; inversion Hrun; subst; eauto.
    + left. unfold ret in Hrun. inversion Hrun; auto.
Qed.

(** With a budget that is not negative the body of the inner loop runs
    exactly once. *)
Lemma next_search_loop_once : forall claim past summarize st s st',
  0 <= max_retries deps ->
  next_search claim past summarize st = (Some s, st') ->
  next_search_loop (Z.to_nat (max_retries deps + 1)) claim past summarize None 0 st
  = (Some s, 1, st').
Proof.
  intros claim past summarize st s st' Hr Hs.
  replace (Z.to_nat (max_retries deps + 1)) with (S (Z.to_nat (max_retries deps))) by lia.
  simpl. destruct (0 <=? max_retries deps) eqn:Hle; [|apply Z.leb_gt in Hle; lia].
  unfold bind. rewrite Hs.
  destruct (Z.to_nat (max_retries deps)); reflexivity.
Qed.

Lemma search_step_once : forall claim summarize past st s st',
  0 <= max_retries deps ->
  next_search claim past summarize st = (Some s, st') ->
  search_step claim summarize past st
  = (if Searcher.no_result s then past else (past ++ [s])%list, st').
Proof.
  intros claim summarize past st s st' Hr Hs.
  unfold Searcher.search_step, bind.
  rewrite (next_search_loop_once _ _ _ _ _ _ Hr Hs).
  destruct (Searcher.no_result s); reflexivity.
Qed.

(** What one iteration of the outer loop does to the list and to the
    trace, whatever the budgets. *)
Lemma search_step_effect : forall claim summarize past st past' st',
  search_step claim summarize past st = (past', st') ->
  exists evs, extends st st' evs
    /\ ((past' = past /\ (length (issued_queries evs) <= 1)%nat)
        \/ (exists s, past' = (past ++ [s])%list
                      /\ issued_queries evs = [query s]
                      /\ Searcher.no_result s = false)).
Proof.
  intros claim summarize past st past' st' Hrun.
  unfold Searcher.search_step in Hrun.
  bind_step Hrun p st1 Hloop. destruct p as [r n].
  apply next_search_loop_cases in Hloop.
  destruct Hloop as [(-> & -> & _) | (s & Hs & -> & _)].
  - unfold ret in Hrun. inversion Hrun; subst.
    exists []. split; [apply extends_refl|]. left. simpl. split; [reflexivity|lia].
  - destruct (next_search_returns claim past summarize st) as (s0 & st0 & evs & Hs0 & E & I).
    rewrite Hs in Hs0. inversion Hs0; subst s0 st0.
    exists evs.
    destruct (Searcher.no_result s) eqn:Hn; unfold ret in Hrun; inversion Hrun; subst;
      (split; [exact E|]).
    + left. rewrite I. simpl. split; [reflexivity|lia].
    + right. exists s. auto.
Qed.

Lemma sufficient_knowledge_effect : forall claim past st b st',
  sufficient_knowledge claim past st = (b, st') ->
  exists decision,
    extends st st' [EvGenerate (Searcher.sufficiency_input claim past) decision]
    /\ decision = fst (model_generate svc (Searcher.sufficiency_input claim past) (world st))
    /\ b = String.eqb (lower decision) "sufficient".
Proof.
  intros claim past st b st' Hrun.
  unfold Searcher.sufficient_knowledge in Hrun.
  bind_step Hrun d st1 Hg. apply generate_extends in Hg. destruct Hg as (E & Hd & _).
  exists d. destruct (String.eqb (lower d) "sufficient");
    unfold ret in Hrun; inversion Hrun; subst; auto.
Qed.

(** The sufficiency test of the outer loop. *)
Lemma stop_test_effect : forall claim (limit_search : bool) past st b st',
  (if limit_search then sufficient_knowledge claim past else ret false) st = (b, st') ->
  exists evs, extends st st' evs /\ issued_queries evs = [].
Proof.
  intros claim limit_search past st b st' Hrun. destruct limit_search.
  - apply sufficient_knowledge_effect in Hrun. destruct Hrun as (d & E & _). eauto.
  - unfold ret in Hrun. inversion Hrun; subst.
    exists []. split; [apply extends_refl|reflexivity].
Qed.

(** The list only grows, by at most one entry per iteration. *)
Lemma search_loop_length : forall steps claim limit_search summarize past st past' st',
  search_loop steps claim limit_search summarize past st = (past', st') ->
  (length past' <= length past + steps)%nat.
Proof.
  induction steps as [|steps IH]; intros claim limit_search summarize past st past' st' Hrun;
    simpl in Hrun.
  - unfold ret in Hrun. inversion Hrun; subst. lia.
  - bind_step Hrun past1 st1 Hstep.
    apply search_step_effect in Hstep.
    destruct Hstep as (evs & _ & Hcase).
    assert (length past1 <= length past + 1)%nat as Hlen.
    { destruct Hcase as [(-> & _) | (s & -> & _)]; [lia|].
      rewrite length_app. simpl. lia. }
    bind_step Hrun stop st2 Hstop.
    destruct stop.
    + unfold ret in Hrun. inversion Hrun; subst. lia.
    + apply IH in Hrun. lia.
Qed.

Lemma NoDup_app_l : forall (A : Type) (l1 l2 : list A), NoDup (l1 ++ l2) -> NoDup l1.
Proof.
  induction l1 as [|a l1 IH]; intros l2 Hnd; [constructor|].
  simpl in Hnd. inversion Hnd; subst. constructor.
  - intro Hin. apply H1. apply in_or_app. auto.
  - eapply IH; eauto.
Qed.

Lemma NoDup_snoc : forall (A : Type) (l : list A) a,
  NoDup l -> ~ In a l -> NoDup (l ++ [a]).
Proof.
  induction l as [|b l IH]; intros a Hnd Hnin; simpl.
  - constructor; [auto|constructor].
  - inversion Hnd; subst. constructor.
    + intro Hin. apply in_app_or in Hin. destruct Hin as [Hin|[Hin|[]]]; [auto|].
      subst. apply Hnin. left. reflexivity.
    + apply IH; [assumption|]. intro Hin. apply Hnin. right. assumption.
Qed.

Lemma NoDup_snoc_inv : forall (A : Type) (l : list A) a,
  NoDup (l ++ [a]) -> ~ In a l.
Proof.
  induction l as [|b l IH]; intros a Hnd; simpl in *; [tauto|].
  inversion Hnd; subst. intros [Heq|Hin].
  - subst. apply H1. apply in_or_app. right. left. reflexivity.
  - exact (IH a H2 Hin).
Qed.

(** C10. [_maybe_get_next_search] returns a [SearchResult], never [None],
    on every path.  Hence, for a retry budget that is not negative, the
    inner loop of [search] runs its body exactly once ([num_tries] is 1 when
    the loop is left and one query went to the backend), and a step is
    marked unsuccessful, i.e. appends nothing, exactly when the result is
    empty. *)
Theorem next_search_never_none : forall claim past summarize st,
  exists s st' evs,
    Searcher._maybe_get_next_search svc deps claim past summarize st = (Some s, st')
    /\ extends st st' evs
    /\ issued_queries evs = [query s]
    /\ (0 <= max_retries deps ->
        Searcher.next_search_loop svc deps (Z.to_nat (max_retries deps + 1))
          claim past summarize None 0 st = (Some s, 1, st')
        /\ Searcher.search_step svc deps claim summarize past st
           = (if Searcher.no_result s then past else (past ++ [s])%list, st')).
Proof.
  intros claim past summarize st.
  destruct (next_search_returns claim past summarize st) as (s & st' & evs & Hs & E & I).
  exists s, st', evs. repeat split; auto.
  - apply next_search_loop_once; assumption.
  - apply search_step_once; assumption.
Qed.

(** C4. For a step budget that is not negative, the list returned by
    [search] has at most [max_steps] entries, and so has the list after any
    number of iterations of the loop. *)
Theorem search_length_le_max_steps : forall claim limit_search summarize st,
  0 <= max_steps deps ->
  Z.of_nat (length (fst (Searcher.search svc deps claim limit_search summarize st)))
    <= max_steps deps
  /\ forall steps, (steps <= Z.to_nat (max_steps deps))%nat ->
       Z.of_nat (length (fst (Searcher.search_loop svc deps steps claim limit_search
                                summarize [] st)))
         <= max_steps deps.
Proof.
  intros claim limit_search summarize st Hsteps.
  assert (forall steps, (steps <= Z.to_nat (max_steps deps))%nat ->
            Z.of_nat (length (fst (search_loop steps claim limit_search summarize [] st)))
              <= max_steps deps) as Hall.
  { intros steps Hle.
    destruct (search_loop steps claim limit_search summarize [] st) as [past st'] eqn:Hrun.
    apply search_loop_length in Hrun. simpl in *. lia. }
  split; [|exact Hall].
  unfold Searcher.search. apply Hall. lia.
Qed.

(** C3, as amended.  A search step whose result is a non-empty string
    appends its (query, result) pair to the list; a step whose result is the
    empty string appends nothing. *)
Theorem search_step_appends : forall claim summarize past st s st',
  0 <= max_retries deps ->
  Searcher._maybe_get_next_search svc deps claim past summarize st = (Some s, st') ->
  (forall r, result s = Some r -> r <> "" ->
     Searcher.search_step svc deps claim summarize past st = ((past ++ [s])%list, st'))
  /\ (result s = Some "" ->
     Searcher.search_step svc deps claim summarize past st = (past, st')).
Proof.
  intros claim summarize past st s st' Hr Hs.
  rewrite (search_step_once _ _ _ _ _ _ Hr Hs). unfold Searcher.no_result.
  split.
  - intros r -> Hne. destruct r; [congruence|reflexivity].
  - intros ->. reflexivity.
Qed.

(** C6. With [limit_search] set, an iteration of the loop ends the session
    exactly when the lowercased answer of the model to the sufficiency
    prompt is "sufficient"; any other answer continues with the next
    iteration.  In particular, when the answer is "insufficient" after the
    first step and "sufficient" after the second, the session consists of
    exactly two steps: it ends in the state reached after the second
    sufficiency test, with two queries sent to the backend. *)
Theorem search_stops_iff_sufficient : forall claim summarize,
  (forall steps past st,
     let '(past1, st1) := Searcher.search_step svc deps claim summarize past st in
     let decision :=
       fst (model_generate svc (Searcher.sufficiency_input claim past1) (world st1)) in
     let '(_, st2) := Searcher.sufficient_knowledge svc claim past1 st1 in
     Searcher.search_loop svc deps (S steps) claim true summarize past st
     = if String.eqb (lower decision) "sufficient"
       then (past1, st2)
       else Searcher.search_loop svc deps steps claim true summarize past1 st2)
  /\
  (forall w,
     2 <= max_steps deps ->
     0 <= max_retries deps ->
     let '(past1, st1) := Searcher.search_step svc deps claim summarize [] (init_St w) in
     let '(_, st1') := Searcher.sufficient_knowledge svc claim past1 st1 in
     let '(past2, st2) := Searcher.search_step svc deps claim summarize past1 st1' in
     let '(_, st2') := Searcher.sufficient_knowledge svc claim past2 st2 in
     fst (model_generate svc (Searcher.sufficiency_input claim past1) (world st1))
       = "insufficient" ->
     fst (model_generate svc (Searcher.sufficiency_input claim past2) (world st2))
       = "sufficient" ->
     Searcher.search svc deps claim true summarize (init_St w) = (past2, st2')
     /\ count_search (trace st2') = 2%nat).
Proof.
  intros claim summarize.
  assert (forall steps past st,
     let '(past1, st1) := search_step claim summarize past st in
     let decision :=
       fst (model_generate svc (Searcher.sufficiency_input claim past1) (world st1)) in
     let '(_, st2) := sufficient_knowledge claim past1 st1 in
     search_loop (S steps) claim true summarize past st
     = if String.eqb (lower decision) "sufficient"
       then (past1, st2)
       else search_loop steps claim true summarize past1 st2) as Hiter.
  { intros steps past st. simpl. unfold bind at 1.
    destruct (search_step claim summarize past st) as [past1 st1].
    unfold bind at 1.
    destruct (sufficient_knowledge claim past1 st1) as [b st2] eqn:Hsuff.
    apply sufficient_knowledge_effect in Hsuff.
    destruct Hsuff as (d & _ & -> & ->).
    destruct (String.eqb _ _); reflexivity. }
  split; [exact Hiter|].
  intros w Hsteps Hretries.
  pose proof (Hiter (S (Z.to_nat (max_steps deps) - 2)) [] (init_St w)) as H1.
  destruct (search_step claim summarize [] (init_St w)) as [past1 st1] eqn:Hstep1.
  destruct (sufficient_knowledge claim past1 st1) as [b1 st1'] eqn:Hsuff1.
  pose proof (Hiter (Z.to_nat (max_steps deps) - 2)%nat past1 st1') as H2.
  destruct (search_step claim summarize past1 st1') as [past2 st2] eqn:Hstep2.
  destruct (sufficient_knowledge claim past2 st2) as [b2 st2'] eqn:Hsuff2.
  intros Hd1 Hd2. cbv zeta in H1, H2.
  rewrite Hd1 in H1. rewrite Hd2 in H2. simpl String.eqb in H1, H2.
  split.
  - unfold Searcher.search.
    replace (Z.to_nat (max_steps deps))
      with (S (S (Z.to_nat (max_steps deps) - 2))) by lia.
    rewrite H1. exact H2.
  - destruct (next_search_returns claim [] summarize (init_St w))
      as (s1 & sa & e1 & Hs1 & E1 & I1).
    rewrite (search_step_once _ _ _ _ _ _ Hretries Hs1) in Hstep1.
    inversion Hstep1; subst sa.
    destruct (next_search_returns claim past1 summarize st1')
      as (s2 & sb & e2 & Hs2 & E2 & I2).
    rewrite (search_step_once _ _ _ _ _ _ Hretries Hs2) in Hstep2.
    inversion Hstep2; subst sb.
    apply sufficient_knowledge_effect in Hsuff1. destruct Hsuff1 as (d1 & F1 & _).
    apply sufficient_knowledge_effect in Hsuff2. destruct Hsuff2 as (d2 & F2 & _).
    unfold extends in *. simpl in E1.
    rewrite count_search_issued, F2, E2, F1, E1.
    rewrite !issued_queries_app, I1, I2. reflexivity.
Qed.

End SearcherFacts.

(** ** Judge *)

Section JudgeFacts.
Context {W Label Doc : Type} `{LabelEnum Label}
        (svc : Services W) (deps : Deps Label Doc) (classes : list Label).

Local Abbreviation _extract_verdict := (Judge._extract_verdict deps classes).
Local Abbreviation _generate_verdict := (Judge._generate_verdict svc deps classes).
Local Abbreviation verdict_of := (Judge.verdict_of deps classes).
Local Abbreviation judge_loop := (Judge.judge_loop svc deps classes).
Local Abbreviation maybe_get_final_answer := (Judge.maybe_get_final_answer svc deps classes).
Local Abbreviation reason_loop := (Judge.reason_loop svc deps classes).

Lemma Label_eqb_refl : forall l : Label, Label_eqb l l = true.
Proof. intros l. apply Label_eqb_eq. reflexivity. Qed.

Lemma _generate_verdict_effect : forall prompt st,
  exists r st',
    _generate_verdict prompt st = (verdict_of r, st')
    /\ r = fst (model_generate svc prompt (world st))
    /\ extends st st' [EvGenerate prompt r].
Proof.
  intros prompt st. unfold Judge._generate_verdict, verdict_of.
  unfold bind at 1.
  destruct (generate svc prompt st) as [r st1] eqn:Hg.
  apply generate_extends in Hg. destruct Hg as (E & Hr & _).
  unfold bind, set_latest_reasoning.
  exists r. eexists. split; [|split; [exact Hr|]].
  - destruct (is_guardrail_hit deps r); reflexivity.
  - unfold extends in *. simpl. exact E.
Qed.

(** When every generation is refused, the loop of [judge] makes one attempt
    and then one more per unit of budget left. *)
Lemma judge_loop_all_refused : forall prompt,
  (forall p w, verdict_of (fst (model_generate svc p w)) = REFUSED_TO_ANSWER) ->
  forall fuel n_retries st,
    0 <= n_retries <= max_retries deps ->
    Z.of_nat fuel = max_retries deps - n_retries ->
    exists st' evs,
      judge_loop fuel prompt n_retries st = (REFUSED_TO_ANSWER, st')
      /\ extends st st' evs
      /\ length evs = S fuel
      /\ Forall (fun e => exists r, e = EvGenerate prompt r) evs.
Proof.
  intros prompt Hall. induction fuel as [|fuel IH]; intros n_retries st Hn Hfuel.
  - destruct (_generate_verdict_effect prompt st) as (r & st1 & Hv & Hr & E).
    simpl. unfold bind. rewrite Hv. rewrite Hr, Hall, Label_eqb_refl.
    destruct (max_retries deps <? n_retries + 1) eqn:Hlt; [|apply Z.ltb_ge in Hlt; lia].
    exists st1, [EvGenerate prompt r].
    split; [reflexivity|]. split; [exact E|]. split; [reflexivity|].
    constructor; [eauto|constructor].
  - destruct (_generate_verdict_effect prompt st) as (r & st1 & Hv & Hr & E).
    simpl. unfold bind. rewrite Hv. rewrite Hr, Hall, Label_eqb_refl.
    destruct (max_retries deps <? n_retries + 1) eqn:Hlt; [apply Z.ltb_lt in Hlt; lia|].
    destruct (IH (n_retries + 1) st1) as (st' & evs & Hrun & E' & Hlen & Hfor); [lia|lia|].
    exists st', ([EvGenerate prompt r] ++ evs)%list.
    split; [exact Hrun|]. split; [eapply extends_trans; [exact E|exact E']|].
    split; [simpl; rewrite Hlen; reflexivity|].
    constructor; [eauto|exact Hfor].
Qed.

(** C7. If no generation yields a verdict (each response is refused by the
    guardrail test or by the extractor), then for a retry budget that is
    not negative [judge] returns REFUSED_TO_ANSWER after exactly
    [1 + max_retries] generations, each of them a fresh call of the model
    on the judge prompt: three generations for [max_retries = 2]. *)
Theorem judge_refuses_after_all_attempts : forall doc st,
  0 <= max_retries deps ->
  (forall prompt w,
     let response := fst (model_generate svc prompt w) in
     is_guardrail_hit deps response = true
     \/ Judge._extract_verdict deps classes response = REFUSED_TO_ANSWER) ->
  exists st' evs,
    Judge.judge svc deps classes doc st = (REFUSED_TO_ANSWER, st')
    /\ extends st st' evs
    /\ Z.of_nat (length evs) = 1 + max_retries deps
    /\ Forall (fun e => exists r, e = EvGenerate (JudgePrompt deps doc classes) r) evs.
Proof.
  intros doc st Hretries Hall.
  assert (forall p w, verdict_of (fst (model_generate svc p w)) = REFUSED_TO_ANSWER) as Hall'.
  { intros p w. unfold verdict_of. destruct (Hall p w) as [Hg|He].
    - rewrite Hg. reflexivity.
    - destruct (is_guardrail_hit deps _); [reflexivity|exact He]. }
  destruct (judge_loop_all_refused (JudgePrompt deps doc classes) Hall'
              (Z.to_nat (max_retries deps)) 0 st) as (st' & evs & Hrun & E & Hlen & Hfor);
    [lia|lia|].
  exists st', evs.
  split; [exact Hrun|]. split; [exact E|]. split; [lia|exact Hfor].
Qed.

(** C8. For a last code span of ASCII text: when the normalized token is
    not empty and is not the value of a member of the enumeration,
    [_extract_verdict] returns the first class, in the order of [classes],
    whose value is a substring of the token: a class preceded by classes
    that do not match wins over every later match. *)
Theorem extract_verdict_first_match : forall response before c after,
  let span := extract_last_code_span deps response in
  let token := lower (strip (re_sub_punct span)) in
  isascii span = true ->
  token <> "" ->
  Label_of_value token = None ->
  classes = (before ++ c :: after)%list ->
  contains (value c) token = true ->
  (forall c', In c' before -> contains (value c') token = false) ->
  Judge._extract_verdict deps classes response = c.
Proof.
  intros response before c after span token _ Hne Hlookup Hclasses Hc Hbefore.
  subst span. unfold Judge._extract_verdict. fold token.
  destruct token eqn:Ht; [congruence|]. simpl is_empty. cbv iota.
  rewrite <- Ht in *. rewrite Hlookup.
  assert (find (fun c0 : Label => contains (value c0) token) classes = Some c) as ->.
  { rewrite Hclasses. clear Hclasses. induction before as [|b before IH]; simpl.
    - rewrite Hc. reflexivity.
    - rewrite (Hbefore b) by (left; reflexivity).
      apply IH. intros c' Hin. apply Hbefore. right. exact Hin. }
  reflexivity.
Qed.

(** [maybe_get_final_answer] builds a [FinalAnswer] on each of its paths. *)
Lemma maybe_get_final_answer_returns : forall claim evidence st,
  exists fa st', maybe_get_final_answer claim evidence st = (Some fa, st').
Proof.
  intros claim evidence st. unfold Judge.maybe_get_final_answer.
  unfold bind at 1. destruct (generate svc _ st) as [r st1].
  destruct (is_guardrail_hit deps r); [unfold ret; eauto|].
  destruct (negb (is_empty r) && _)%bool; [unfold ret; eauto|].
  unfold bind. destruct (generate svc _ st1) as [a st2]. unfold ret. eauto.
Qed.

(** C9. [maybe_get_final_answer] returns a [FinalAnswer], never [None], for
    every response of the model.  Hence, for a retry budget that is not
    negative, the loop of [reason] runs exactly one iteration whatever the
    size of the budget ([num_tries] is 1 when it is left), and [reason]
    never takes the fallback that returns (REFUTED, empty text): its outcome is
    computed from the [FinalAnswer] of that one iteration. *)
Theorem judge_reason_single_iteration : forall claim evidence st,
  exists fa st',
    Judge.maybe_get_final_answer svc deps classes claim evidence st = (Some fa, st')
    /\ (0 <= max_retries deps ->
        Judge.reason_loop svc deps classes (Z.to_nat (max_retries deps + 1))
          claim evidence None 0 st = (Some fa, 1, st')
        /\ Judge.reason svc deps classes claim evidence st
           = (match Label_of_value (lower (Judge.answer fa)) with
              | Some predicted_label => Ok (predicted_label, Judge.response fa)
              | None => Raise ValueError
              end, st')).
Proof.
  intros claim evidence st.
  destruct (maybe_get_final_answer_returns claim evidence st) as (fa & st' & Hfa).
  exists fa, st'. split; [exact Hfa|]. intros Hretries.
  assert (reason_loop (Z.to_nat (max_retries deps + 1)) claim evidence None 0 st
          = (Some fa, 1, st')) as Hloop.
  { replace (Z.to_nat (max_retries deps + 1)) with (S (Z.to_nat (max_retries deps))) by lia.
    simpl. destruct (0 <=? max_retries deps) eqn:Hle; [|apply Z.leb_gt in Hle; lia].
    unfold bind. rewrite Hfa. destruct (Z.to_nat (max_retries deps)); reflexivity. }
  split; [exact Hloop|].
  unfold Judge.reason, bind. rewrite Hloop.
  destruct (Label_of_value _); reflexivity.
Qed.

End JudgeFacts.

(** ** Reasoner *)

Section ReasonerFacts.
Context {W Label Doc : Type} `{LabelEnum Label}
        (svc : Services W) (deps : Deps Label Doc).

(** A response that is neither a refusal nor a bracketed member value makes
    [maybe_get_final_answer] read the unbound name [labels]. *)
Lemma reasoner_unbound_labels : forall claim evidence results st,
  Reasoner.results_to_join evidence = Ok results ->
  let r := fst (model_generate svc (ReasonPrompt deps claim (join nl results) None) (world st)) in
  startswith r "I cannot" = false ->
  (negb (is_empty r)
   && str_in (strip (re_sub_punct (extract_first_square_brackets deps r)))
        (map value members))%bool = false ->
  0 <= max_retries deps ->
  fst (Reasoner.reason svc deps claim evidence st) = Raise (NameError "labels").
Proof.
  intros claim evidence results st Hjoin r Hrefusal Hlabel Hretries.
  assert (fst (Reasoner.maybe_get_final_answer svc deps claim evidence st)
          = Raise (NameError "labels")) as Hcall.
  { unfold Reasoner.maybe_get_final_answer. rewrite Hjoin.
    unfold bind, generate. fold r.
    destruct (model_generate svc _ (world st)) as [r0 w0] eqn:Hg.
    simpl in r. subst r. rewrite Hrefusal, Hlabel. reflexivity. }
  unfold Reasoner.reason.
  replace (Z.to_nat (max_retries deps + 1)) with (S (Z.to_nat (max_retries deps))) by lia.
  simpl. destruct (0 <=? max_retries deps) eqn:Hle; [|apply Z.leb_gt in Hle; lia].
  unfold bind at 1. unfold bind at 1.
  destruct (Reasoner.maybe_get_final_answer svc deps claim evidence st) as [a st1].
  simpl in Hcall. subst a. reflexivity.
Qed.

End ReasonerFacts.

Section JudgeReasonFacts.
Context {W Label Doc : Type} `{LabelEnum Label}
        (svc : Services W) (deps : Deps Label Doc) (classes : list Label).

Lemma Label_of_value_member : forall s (l : Label), Label_of_value s = Some l -> In l members.
Proof.
  unfold Label_of_value. intros s l Hfind. apply find_some in Hfind. tauto.
Qed.

(** A label returned by [Judge.reason] is a member of the enumeration. *)
Lemma judge_reason_label_member : forall claim evidence st l text,
  fst (Judge.reason svc deps classes claim evidence st) = Ok (l, text) -> In l members.
Proof.
  intros claim evidence st l text. unfold Judge.reason. unfold bind at 1.
  destruct (Judge.reason_loop _ _ _ _ _ _ _ _ st) as [[fa n] st1].
  destruct fa as [fa|]; simpl.
  - destruct (Label_of_value _) as [l0|] eqn:Hl; simpl; [|discriminate].
    intros Heq. inversion Heq; subst. eapply Label_of_value_member; eauto.
  - intros Heq. inversion Heq; subst. apply REFUTED_member.
Qed.

(** On a guardrail hit [Judge.reason] looks up the value "refused": it
    raises [ValueError] unless a member of the enumeration has that value. *)
Lemma judge_reason_guardrail_hit : forall claim evidence st,
  0 <= max_retries deps ->
  let prompt := ReasonPrompt deps claim (extract_knowledge deps evidence) (Some classes) in
  let r := fst (model_generate svc prompt (world st)) in
  is_guardrail_hit deps r = true ->
  fst (Judge.reason svc deps classes claim evidence st)
  = match Label_of_value "refused" with
    | Some l => Ok (l, r)
    | None => Raise ValueError
    end.
Proof.
  intros claim evidence st Hretries prompt r Hhit.
  unfold Judge.reason.
  replace (Z.to_nat (max_retries deps + 1)) with (S (Z.to_nat (max_retries deps))) by lia.
  simpl. destruct (0 <=? max_retries deps) eqn:Hle; [|apply Z.leb_gt in Hle; lia].
  unfold bind at 1. unfold bind at 1.
  unfold Judge.maybe_get_final_answer. unfold bind at 1. unfold generate.
  fold prompt.
  destruct (model_generate svc prompt (world st)) as [r0 w0] eqn:Hg.
  simpl in r. subst r. rewrite Hhit. unfold ret.
  destruct (Z.to_nat (max_retries deps)); simpl;
    change (lower "refused") with "refused";
    destruct (Label_of_value "refused"); reflexivity.
Qed.

(** With a negative budget the loop of [reason] does not run and the
    fallback is returned without any call of the model. *)
Lemma judge_reason_negative_budget : forall claim evidence st,
  max_retries deps < 0 ->
  Judge.reason svc deps classes claim evidence st = (Ok (REFUTED, ""), st).
Proof.
  intros claim evidence st Hneg. unfold Judge.reason.
  replace (Z.to_nat (max_retries deps + 1)) with O by lia.
  simpl. destruct (0 <=? max_retries deps) eqn:Hle; [apply Z.leb_le in Hle; lia|].
  reflexivity.
Qed.

End JudgeReasonFacts.

(** ** Concrete sessions *)

Section Sessions.
Import Demo.

(** C1. [Reasoner.reason] raises on a well-formed session: the model
    answers the reason prompt with a sentence that carries no bracketed
    label, the branch that would ask for a correction reads the unbound name
    [labels], and the [NameError] leaves [reason]. *)
Theorem reasoner_reason_raises_name_error :
  fst (Reasoner.reason (scripted empty_api) (demo_deps 5 2) sky_claim
         [{| query := "sky color"; result := Some "The sky is blue." |}]
         (init_St ["The sky is blue, so the claim is false."]))
  = Raise (NameError "labels").
Proof. vm_compute. reflexivity. Qed.

(** C3, counterexample.  A step sends the query "sky color" to the backend,
    which finds nothing; the list stays empty: the pair of the step is not
    appended. *)
Lemma search_step_drops_empty_result :
  let run := Searcher.search_step (scripted empty_api) (demo_deps 5 2) sky_claim true []
               (init_St ["```sky color```"]) in
  trace (snd run)
  = [EvGenerate (SearchPrompt (demo_deps 5 2) sky_claim "N/A" "N/A") "```sky color```";
     EvSearch "sky color" ""]
  /\ fst run = []
  /\ ~ (exists s, fst run = ([] ++ [s])%list).
Proof.
  split; [vm_compute; reflexivity|]. split; [vm_compute; reflexivity|].
  intros [s Hs]. vm_compute in Hs. discriminate.
Qed.

(** The same happens to a step whose result duplicates a stored one: the
    [SearchResult] with the absent result is built but not appended, so the
    query is not kept either. *)
Lemma search_step_drops_duplicate_result :
  let past := [{| query := "sky color"; result := Some "Result for sky color" |}] in
  let st := init_St ["```sky color```"; "sky color"] in
  fst (Searcher._maybe_get_next_search (scripted echo_api) (demo_deps 5 2) sky_claim past true st)
  = Some {| query := "sky color"; result := None |}
  /\ fst (Searcher.search_step (scripted echo_api) (demo_deps 5 2) sky_claim true past st)
     = past.
Proof. split; vm_compute; reflexivity. Qed.


(** C3, as amended, on a session: the backend answers the query of the step,
    and the pair is appended. *)
Lemma search_step_appends_witness :
  let st := init_St ["```sky color```"] in
  let s := {| query := "sky color"; result := Some "Result for sky color" |} in
  let run := Searcher._maybe_get_next_search (scripted echo_api) (demo_deps 5 2)
               sky_claim [] true st in
  0 <= max_retries (demo_deps 5 2)
  /\ fst run = Some s
  /\ Searcher.search_step (scripted echo_api) (demo_deps 5 2) sky_claim true [] st
     = ([s], snd run).
Proof.
  cbv zeta. split; [simpl; lia|]. split; [vm_compute; reflexivity|].
  refine (proj1 (search_step_appends (scripted echo_api) (demo_deps 5 2) sky_claim true []
                   (init_St ["```sky color```"])
                   {| query := "sky color"; result := Some "Result for sky color" |}
                   _ _ _) "Result for sky color" _ _).
  - simpl. lia.
  - vm_compute. reflexivity.
  - reflexivity.
  - discriminate.
Defined.

(** C4 on a session of five steps that finds nothing. *)
Lemma search_length_le_max_steps_witness :
  0 <= max_steps (demo_deps 5 2)
  /\ Z.of_nat (length (fst (Searcher.search (scripted empty_api) (demo_deps 5 2) sky_claim
                              true true (init_St ["```sky color```"]))))
     <= max_steps (demo_deps 5 2).
Proof.
  split; [simpl; lia|].
  apply (proj1 (search_length_le_max_steps (scripted empty_api) (demo_deps 5 2) sky_claim
                  true true (init_St ["```sky color```"]) ltac:(simpl; lia))).
Defined.

(** C6 on the scenario of the spec: "insufficient" after the first step,
    "sufficient" after the second, with a budget of five steps. *)
Lemma search_stops_iff_sufficient_witness :
  let w := ["```sky color```"; "insufficient"; "```color of the sky```"; "sufficient";
            "```why is the sky blue```"; "insufficient"] in
  let run := Searcher.search (scripted echo_api) (demo_deps 5 2) sky_claim true true (init_St w) in
  2 <= max_steps (demo_deps 5 2)
  /\ 0 <= max_retries (demo_deps 5 2)
  /\ map query (fst run) = ["sky color"; "color of the sky"]
  /\ count_search (trace (snd run)) = 2%nat.
Proof.
  cbv zeta. split; [simpl; lia|]. split; [simpl; lia|].
  pose proof (proj2 (search_stops_iff_sufficient (scripted echo_api) (demo_deps 5 2)
                       sky_claim true)
                ["```sky color```"; "insufficient"; "```color of the sky```"; "sufficient";
                 "```why is the sky blue```"; "insufficient"]
                ltac:(simpl; lia) ltac:(simpl; lia)) as Hscenario.
  vm_compute in Hscenario.
  destruct (Hscenario eq_refl eq_refl) as [_ Hcount].
  split; [vm_compute; reflexivity|].
  vm_compute. exact Hcount.
Defined.

(** C7 on the scenario of the spec: the model never names a label and
    [max_retries] is 2; [judge] refuses after three generations. *)
Lemma judge_refuses_after_all_attempts_witness :
  0 <= max_retries (demo_deps 5 2)
  /\ (forall (prompt : string) (w : nat),
        Judge._extract_verdict (demo_deps 5 2) [L_SUPPORTED; L_REFUTED]
          (fst (model_generate (constant_model "I have no idea.") prompt w))
        = REFUSED_TO_ANSWER)
  /\ exists st' evs,
       Judge.judge (constant_model "I have no idea.") (demo_deps 5 2) [L_SUPPORTED; L_REFUTED]
         "The sky is green." (init_St 0%nat) = (REFUSED_TO_ANSWER, st')
       /\ extends (init_St 0%nat) st' evs
       /\ Z.of_nat (length evs) = 3.
Proof.
  split; [simpl; lia|]. split; [intros prompt w; vm_compute; reflexivity|].
  destruct (judge_refuses_after_all_attempts (constant_model "I have no idea.")
              (demo_deps 5 2) [L_SUPPORTED; L_REFUTED] "The sky is green." (init_St 0%nat)
              ltac:(simpl; lia)
              ltac:(intros prompt w; right; vm_compute; reflexivity))
    as (st' & evs & Hrun & Hext & Hlen & _).
  exists st', evs. split; [exact Hrun|]. split; [exact Hext|exact Hlen].
Defined.

(** C8 on a token that contains the values of two classes, which follow a
    class whose value the token does not contain: the first of the two in
    [classes] is returned, in either order. *)
Lemma extract_verdict_first_match_witness :
  isascii (extract_last_code_span (demo_deps 5 2) "Verdict: `not refuted, rather supported!`")
  = true
  /\ Judge._extract_verdict (demo_deps 5 2) [L_NOT_ENOUGH_INFO; L_REFUTED; L_SUPPORTED]
       "Verdict: `not refuted, rather supported!`" = L_REFUTED
  /\ Judge._extract_verdict (demo_deps 5 2) [L_NOT_ENOUGH_INFO; L_SUPPORTED; L_REFUTED]
       "Verdict: `not refuted, rather supported!`" = L_SUPPORTED.
Proof.
  split; [vm_compute; reflexivity|]. split.
  - apply (extract_verdict_first_match (demo_deps 5 2)
             [L_NOT_ENOUGH_INFO; L_REFUTED; L_SUPPORTED]
             "Verdict: `not refuted, rather supported!`"
             [L_NOT_ENOUGH_INFO] L_REFUTED [L_SUPPORTED]).
    + vm_compute. reflexivity.
    + vm_compute. discriminate.
    + vm_compute. reflexivity.
    + reflexivity.
    + vm_compute. reflexivity.
    + intros c' [<-|[]]. vm_compute. reflexivity.
  - apply (extract_verdict_first_match (demo_deps 5 2)
             [L_NOT_ENOUGH_INFO; L_SUPPORTED; L_REFUTED]
             "Verdict: `not refuted, rather supported!`"
             [L_NOT_ENOUGH_INFO] L_SUPPORTED [L_REFUTED]).
    + vm_compute. reflexivity.
    + vm_compute. discriminate.
    + vm_compute. reflexivity.
    + reflexivity.
    + vm_compute. reflexivity.
    + intros c' [<-|[]]. vm_compute. reflexivity.
Defined.

(** C9 on a session with a budget of ten retries: one iteration, and the
    verdict of that iteration is returned. *)
Lemma judge_reason_single_iteration_witness :
  0 <= max_retries (demo_deps 5 10)
  /\ exists fa st',
       Judge.reason_loop (scripted empty_api) (demo_deps 5 10) [L_SUPPORTED; L_REFUTED]
         (Z.to_nat (max_retries (demo_deps 5 10) + 1)) sky_claim [] None 0
         (init_St ["The sky is blue. [Refuted]"; "[supported]"]) = (Some fa, 1, st')
       /\ world st' = ["[supported]"]
       /\ Judge.reason (scripted empty_api) (demo_deps 5 10) [L_SUPPORTED; L_REFUTED]
            sky_claim [] (init_St ["The sky is blue. [Refuted]"; "[supported]"])
          = (Ok (L_REFUTED, "The sky is blue. [Refuted]"), st').
Proof.
  split; [simpl; lia|].
  destruct (judge_reason_single_iteration (scripted empty_api) (demo_deps 5 10)
              [L_SUPPORTED; L_REFUTED] sky_claim []
              (init_St ["The sky is blue. [Refuted]"; "[supported]"]))
    as (fa & st' & Hcall & Hloop).
  destruct (Hloop ltac:(simpl; lia)) as [Hiter Hreason].
  exists fa, st'. split; [exact Hiter|].
  vm_compute in Hcall. inversion Hcall; subst fa st'.
  split; [reflexivity|]. rewrite Hreason. vm_compute. reflexivity.
Defined.

(** C10 on a session with a budget of ten retries: one call, one query. *)
Lemma next_search_never_none_witness :
  0 <= max_retries (demo_deps 5 10)
  /\ exists s st',
       Searcher.next_search_loop (scripted echo_api) (demo_deps 5 10)
         (Z.to_nat (max_retries (demo_deps 5 10) + 1)) sky_claim [] true None 0
         (init_St ["```sky color```"; "```color of the sky```"]) = (Some s, 1, st')
       /\ issued_queries (trace st') = ["sky color"]
       /\ Searcher.search_step (scripted echo_api) (demo_deps 5 10) sky_claim true []
            (init_St ["```sky color```"; "```color of the sky```"])
          = ([s], st').
Proof.
  split; [simpl; lia|].
  destruct (next_search_never_none (scripted echo_api) (demo_deps 5 10) sky_claim [] true
              (init_St ["```sky color```"; "```color of the sky```"]))
    as (s & st' & evs & Hcall & Hext & Hissued & Hloop).
  destruct (Hloop ltac:(simpl; lia)) as [Hiter Hstep].
  exists s, st'. split; [exact Hiter|].
  vm_compute in Hcall. inversion Hcall; subst s st'.
  split; [reflexivity|]. rewrite Hstep. vm_compute. reflexivity.
Defined.

End Sessions.

(** * Further properties of the code *)

(** ** Searcher: what a session stores and what it costs *)

Section SearcherMore.
Context {W Label Doc : Type} (svc : Services W) (deps : Deps Label Doc).

(** An invariant of the list and the state that every step and every
    sufficiency test keep is kept by the whole loop. *)
Lemma search_loop_invariant : forall (P : list SearchResult -> St W -> Prop) claim limit_search summarize,
  (forall past st past' st',
     Searcher.search_step svc deps claim summarize past st = (past', st') ->
     P past st -> P past' st') ->
  (forall past st b st',
     Searcher.sufficient_knowledge svc claim past st = (b, st') ->
     P past st -> P past st') ->
  forall steps past st past' st',
    Searcher.search_loop svc deps steps claim limit_search summarize past st = (past', st') ->
    P past st -> P past' st'.
Proof.
  intros P claim limit_search summarize Hstep Hsuff.
  induction steps as [|steps IH]; intros past st past' st' Hrun HP; simpl in Hrun.
  - unfold ret in Hrun. inversion Hrun; subst. exact HP.
  - bind_step Hrun past1 st1 Hs. apply Hstep in Hs; [|exact HP].
    bind_step Hrun stop st2 Ht.
    assert (P past1 st2) as HP2.
    { destruct limit_search.
      - eapply Hsuff; eauto.
      - unfold ret in Ht. inversion Ht; subst. exact Hs. }
    destruct stop.
    + unfold ret in Hrun. inversion Hrun; subst. exact HP2.
    + eapply IH; eauto.
Qed.

Lemma present_results_app : forall l1 l2,
  Searcher.present_results (l1 ++ l2)
  = (Searcher.present_results l1 ++ Searcher.present_results l2)%list.
Proof.
  induction l1 as [|s l1 IH]; intros l2; simpl; [reflexivity|].
  destruct (result s); simpl; rewrite IH; reflexivity.
Qed.

Lemma str_in_In : forall x l, str_in x l = true <-> In x l.
Proof.
  intros x l. unfold str_in. rewrite existsb_exists. split.
  - intros (y & Hy & Heq). apply String.eqb_eq in Heq. subst. exact Hy.
  - intros Hin. exists x. split; [exact Hin|apply String.eqb_refl].
Qed.

Lemma is_empty_false : forall s, is_empty s = false <-> s <> "".
Proof. intros [|c s]; simpl; split; congruence. Qed.

(** The entries that a session stores carry a non-empty result. *)
Lemma search_entries_have_results : forall claim limit_search summarize st,
  Forall (fun s => exists r, result s = Some r /\ r <> "")
    (fst (Searcher.search svc deps claim limit_search summarize st)).
Proof.
  intros claim limit_search summarize st.
  destruct (Searcher.search svc deps claim limit_search summarize st) as [past' st'] eqn:Hrun.
  unfold Searcher.search in Hrun. simpl.
  refine (search_loop_invariant
            (fun past _ => Forall (fun s => exists r, result s = Some r /\ r <> "") past)
            claim limit_search summarize _ _ _ _ _ _ _ Hrun _).
  - intros past s0 past1 s1 Hstep HP.
    apply search_step_effect in Hstep.
    destruct Hstep as (evs & _ & [(-> & _) | (s & -> & _ & Hres)]); [exact HP|].
    apply Forall_app. split; [exact HP|]. constructor; [|constructor].
    unfold Searcher.no_result in Hres. destruct (result s) as [r|]; [|discriminate].
    exists r. split; [reflexivity|]. apply is_empty_false. exact Hres.
  - intros; assumption.
  - constructor.
Qed.

(** X1. Every entry of the list returned by [search] carries a result, and
    that result is not the empty string: a step with an absent or empty
    result leaves no entry, so the length of the list is the number of
    results that the reasoning step will read. *)
Theorem search_stores_only_results : forall claim limit_search summarize st,
  let store := fst (Searcher.search svc deps claim limit_search summarize st) in
  Forall (fun s => exists r, result s = Some r /\ r <> "") store
  /\ length (Searcher.present_results store) = length store.
Proof.
  intros claim limit_search summarize st store.
  pose proof (search_entries_have_results claim limit_search summarize st) as Hall.
  fold store in Hall. split; [exact Hall|].
  clearbody store. induction Hall as [|s l (r & Hr & _) _ IH]; simpl; [reflexivity|].
  rewrite Hr. simpl. rewrite IH. reflexivity.
Qed.

(** The calls of one [_maybe_get_next_search], in order: the search
    prompt, possibly the extraction prompt of [post_process_query],
    possibly the [mixer] prompt, the backend, possibly the summarization
    prompt. *)
Lemma next_search_calls : forall claim past summarize st,
  exists s st' response e_post q1 e_mix api e_sum,
    Searcher._maybe_get_next_search svc deps claim past summarize st = (Some s, st')
    /\ extends st st'
         ([EvGenerate
             (SearchPrompt deps claim
                (if is_empty (join nl (Searcher.present_results past)) then "N/A"
                 else join nl (Searcher.present_results past))
                (if is_empty (join nl (map query past)) then "N/A"
                 else join nl (map query past)))
             response]
          ++ e_post ++ e_mix ++ [EvSearch (query s) api] ++ e_sum)
    /\ (e_post = [] \/ exists p r, e_post = [EvGenerate p r])
    /\ ((str_in q1 (map query past) = false /\ e_mix = [] /\ query s = q1)
        \/ (str_in q1 (map query past) = true
            /\ e_mix = [EvGenerate (Searcher.mixer claim q1) (query s)]))
    /\ ((e_sum = []
         /\ result s = (if str_in api (Searcher.present_results past) then None else Some api))
        \/ (summarize = true
            /\ str_in api (Searcher.present_results past) = false
            /\ exists summary,
                 e_sum = [EvGenerate (SummarizePrompt deps (query s) api) summary]
                 /\ result s = Some summary)).
Proof.
  intros claim past summarize st.
  destruct (Searcher._maybe_get_next_search svc deps claim past summarize st) as [r st'] eqn:Hrun.
  unfold Searcher._maybe_get_next_search in Hrun.
  bind_step Hrun response st1 H1.
  apply generate_extends in H1. destruct H1 as (E1 & _ & _).
  bind_step Hrun q1 st2 H2.
  assert (exists e2, extends st1 st2 e2 /\ (e2 = [] \/ exists p r0, e2 = [EvGenerate p r0]))
    as (e2 & E2 & I2).
  { destruct (is_empty _) in H2.
    - unfold Searcher.post_process_query in H2.
      bind_step H2 q0 st0 H0. apply generate_extends in H0.
      destruct H0 as (E0 & _ & _).
      unfold ret in H2. inversion H2; subst. eauto 6.
    - unfold ret in H2. inversion H2; subst.
      exists []. split; [apply extends_refl | left; reflexivity]. }
  bind_step Hrun q2 st3 H3.
  assert (exists e3, extends st2 st3 e3
            /\ ((str_in q1 (map query past) = false /\ e3 = [] /\ q2 = q1)
                \/ (str_in q1 (map query past) = true
                    /\ e3 = [EvGenerate (Searcher.mixer claim q1) q2])))
    as (e3 & E3 & I3).
  { destruct (str_in q1 (map query past)) eqn:Hdup.
    - apply generate_extends in H3. destruct H3 as (E & _ & _). eauto 6.
    - unfold ret in H3. inversion H3; subst.
      exists []. split; [apply extends_refl | left; auto]. }
  bind_step Hrun api st4 H4.
  apply _call_api_extends in H4.
  bind_step Hrun res st5 H5.
  assert (exists e5, extends st4 st5 e5
            /\ ((e5 = []
                 /\ res = (if str_in api (Searcher.present_results past) then None else Some api))
                \/ (summarize = true
                    /\ str_in api (Searcher.present_results past) = false
                    /\ exists summary,
                         e5 = [EvGenerate (SummarizePrompt deps q2 api) summary]
                         /\ res = Some summary)))
    as (e5 & E5 & I5).
  { destruct (str_in api (Searcher.present_results past)) eqn:Hin.
    - unfold ret in H5. inversion H5; subst.
      exists []. split; [apply extends_refl | left; auto].
    - destruct summarize; simpl in H5.
      + destruct (728 <? len api).
        * bind_step H5 sm st0 H0. apply generate_extends in H0.
          destruct H0 as (E & _ & _).
          unfold ret in H5. inversion H5; subst. eauto 8.
        * unfold ret in H5. inversion H5; subst.
          exists []. split; [apply extends_refl | left; auto].
      + unfold ret in H5. inversion H5; subst.
        exists []. split; [apply extends_refl | left; auto]. }
  unfold ret in Hrun. inversion Hrun; subst r st5.
  exists {| query := q2; result := res |}, st', response, e2, q1, e3, api, e5.
  split; [reflexivity|]. split.
  - eapply extends_trans; [exact E1|].
    eapply extends_trans; [exact E2|].
    eapply extends_trans; [exact E3|].
    eapply extends_trans; [exact H4|exact E5].
  - simpl. auto.
Qed.

(** One iteration of the outer loop either runs no search at all (the
    retry budget is negative) or runs [_maybe_get_next_search] once. *)
Lemma search_step_cases : forall claim summarize past st past' st',
  Searcher.search_step svc deps claim summarize past st = (past', st') ->
  (max_retries deps < 0 /\ past' = past /\ st' = st)
  \/ (0 <= max_retries deps
      /\ exists s,
           Searcher._maybe_get_next_search svc deps claim past summarize st = (Some s, st')
           /\ past' = if Searcher.no_result s then past else (past ++ [s])%list).
Proof.
  intros claim summarize past st past' st' Hrun.
  unfold Searcher.search_step in Hrun.
  bind_step Hrun p st1 Hloop. destruct p as [r n].
  destruct (Z.to_nat (max_retries deps + 1)) as [|fuel] eqn:Hfuel; simpl in Hloop.
  - left. split; [lia|].
    destruct (0 <=? max_retries deps); unfold ret in Hloop; inversion Hloop; subst;
      unfold ret in Hrun; inversion Hrun; auto.
  - destruct (0 <=? max_retries deps) eqn:Hle; [|apply Z.leb_gt in Hle; lia].
    right. split; [apply Z.leb_le; exact Hle|].
    destruct (next_search_returns svc deps claim past summarize st) as (s & st2 & evs & Hs & _).
    unfold bind in Hloop. rewrite Hs in Hloop.
    assert ((r, n, st1) = (Some s, 1, st2)) as Heq
      by (destruct fuel; simpl in Hloop; unfold ret in Hloop; congruence).
    inversion Heq; subst. exists s.
    destruct (Searcher.no_result s); unfold ret in Hrun; inversion Hrun; subst;
      (split; [exact Hs|reflexivity]).
Qed.

Lemma results_to_join_present : forall evidence,
  Forall (fun s => exists r, result s = Some r /\ r <> "") evidence ->
  Reasoner.results_to_join evidence = Ok (Searcher.present_results evidence).
Proof.
  induction evidence as [|s rest IH]; intros Hall; simpl; [reflexivity|].
  inversion Hall as [|s0 l0 (r & Hr & _) Hrest]; subst.
  rewrite Hr, (IH Hrest). reflexivity.
Qed.

(** X2. The evidence gathered by [Searcher.search] can always be joined by
    [Reasoner.maybe_get_final_answer]: the list of results handed to
    [str.join] holds no [None], so the join does not raise [TypeError], and
    it is the list of the stored results in their order. *)
Theorem search_evidence_joins : forall claim limit_search summarize st,
  Reasoner.results_to_join (fst (Searcher.search svc deps claim limit_search summarize st))
  = Ok (Searcher.present_results
          (fst (Searcher.search svc deps claim limit_search summarize st))).
Proof.
  intros claim limit_search summarize st.
  apply results_to_join_present.
  apply search_entries_have_results.
Qed.

(** X3. The list of a session only grows: after any number of iterations
    the list is the list at the start followed by the entries added since;
    no stored entry is removed, changed or reordered. *)
Theorem search_loop_appends_only : forall steps claim limit_search summarize past st,
  exists added,
    fst (Searcher.search_loop svc deps steps claim limit_search summarize past st)
    = (past ++ added)%list.
Proof.
  intros steps claim limit_search summarize past st.
  destruct (Searcher.search_loop svc deps steps claim limit_search summarize past st)
    as [past' st'] eqn:Hrun. simpl.
  refine (search_loop_invariant
            (fun l _ => exists added, l = (past ++ added)%list)
            claim limit_search summarize _ _ _ _ _ _ _ Hrun _).
  - intros l s0 l1 s1 Hstep (added & ->).
    apply search_step_effect in Hstep.
    destruct Hstep as (evs & _ & [(-> & _) | (s & -> & _)]).
    + exists added. reflexivity.
    + exists (added ++ [s])%list. rewrite app_assoc. reflexivity.
  - intros; assumption.
  - exists []. rewrite app_nil_r. reflexivity.
Qed.

(** X4. Without summarization no result text is stored twice: the results
    of the list returned by [search] are pairwise different. *)
Theorem search_results_distinct_without_summary : forall claim limit_search st,
  NoDup (Searcher.present_results
           (fst (Searcher.search svc deps claim limit_search false st))).
Proof.
  intros claim limit_search st.
  destruct (Searcher.search svc deps claim limit_search false st) as [past' st'] eqn:Hrun.
  unfold Searcher.search in Hrun. simpl.
  refine (search_loop_invariant
            (fun past _ => NoDup (Searcher.present_results past))
            claim limit_search false _ _ _ _ _ _ _ Hrun _).
  - intros past s0 past1 s1 Hstep HP.
    apply search_step_cases in Hstep.
    destruct Hstep as [(_ & -> & _) | (_ & s & Hs & ->)]; [exact HP|].
    destruct (Searcher.no_result s) eqn:Hno; [exact HP|].
    destruct (next_search_calls claim past false s0)
      as (s' & st2 & response & e_post & q1 & e_mix & api & e_sum & Hs' & _ & _ & _ & Hres).
    rewrite Hs in Hs'. inversion Hs'; subst s' st2.
    destruct Hres as [(_ & Hres) | (Hsum & _)]; [|discriminate].
    rewrite present_results_app. simpl.
    destruct (str_in api (Searcher.present_results past)) eqn:Hin.
    + unfold Searcher.no_result in Hno. rewrite Hres in Hno. discriminate.
    + rewrite Hres. apply NoDup_snoc; [exact HP|].
      intro Habs. apply str_in_In in Habs. congruence.
  - intros; assumption.
  - constructor.
Qed.

Lemma count_generate_app : forall t1 t2,
  count_generate (t1 ++ t2) = (count_generate t1 + count_generate t2)%nat.
Proof.
  intros t1 t2. unfold count_generate. rewrite filter_app, length_app. reflexivity.
Qed.

(** The calls of one iteration of the outer loop, sufficiency test apart:
    at most one backend search and at most four generations, and exactly
    one backend search when the retry budget is not negative. *)
Lemma search_step_calls : forall claim summarize past st past' st',
  Searcher.search_step svc deps claim summarize past st = (past', st') ->
  exists evs,
    extends st st' evs
    /\ (count_search evs <= 1)%nat
    /\ (count_generate evs <= 4)%nat
    /\ (0 <= max_retries deps -> count_search evs = 1%nat).
Proof.
  intros claim summarize past st past' st' Hstep.
  apply search_step_cases in Hstep.
  destruct Hstep as [(Hneg & _ & ->) | (_ & s & Hs & _)].
  - exists []. split; [apply extends_refl|]. simpl.
    unfold count_search, count_generate. simpl. repeat split; lia.
  - destruct (next_search_calls claim past summarize st)
      as (s' & st2 & response & e_post & q1 & e_mix & api & e_sum
          & Hs' & Hext & Hpost & Hmix & Hsum).
    rewrite Hs in Hs'. inversion Hs'; subst s' st2.
    eexists. split; [exact Hext|].
    assert (count_search e_post = 0%nat /\ (count_generate e_post <= 1)%nat) as [Sp Gp].
    { destruct Hpost as [->|(p & r & ->)]; unfold count_search, count_generate; simpl; lia. }
    assert (count_search e_mix = 0%nat /\ (count_generate e_mix <= 1)%nat) as [Sm Gm].
    { destruct Hmix as [(_ & -> & _)|(_ & ->)]; unfold count_search, count_generate; simpl; lia. }
    assert (count_search e_sum = 0%nat /\ (count_generate e_sum <= 1)%nat) as [Ss Gs].
    { destruct Hsum as [(-> & _)|(_ & _ & sm & -> & _)];
        unfold count_search, count_generate; simpl; lia. }
    rewrite !count_search_app, !count_generate_app, Sp, Sm, Ss.
    unfold count_search at 1 2. unfold count_generate at 1 4. simpl. repeat split; lia.
Qed.

Lemma search_loop_calls : forall steps claim limit_search summarize past st past' st',
  Searcher.search_loop svc deps steps claim limit_search summarize past st = (past', st') ->
  exists evs,
    extends st st' evs
    /\ (count_search evs <= steps)%nat
    /\ (count_generate evs <= 5 * steps)%nat
    /\ (limit_search = false -> 0 <= max_retries deps ->
        count_search evs = steps /\ (count_generate evs <= 4 * steps)%nat).
Proof.
  induction steps as [|steps IH]; intros claim limit_search summarize past st past' st' Hrun;
    simpl in Hrun.
  - unfold ret in Hrun. inversion Hrun; subst.
    exists []. split; [apply extends_refl|].
    unfold count_search, count_generate. simpl. repeat split; lia.
  - bind_step Hrun past1 st1 Hstep.
    apply search_step_calls in Hstep. destruct Hstep as (e1 & E1 & S1 & G1 & X1).
    bind_step Hrun stop st2 Hstop.
    destruct limit_search.
    + apply sufficient_knowledge_effect in Hstop. destruct Hstop as (d & E2 & _).
      assert (exists evs, extends st st' evs
                /\ (count_search evs <= S steps)%nat
                /\ (count_generate evs <= 5 * S steps)%nat) as (evs & E & Sb & Gb).
      { destruct stop.
        - unfold ret in Hrun. inversion Hrun; subst.
          eexists. split; [eapply extends_trans; [exact E1|exact E2]|].
          rewrite count_search_app, count_generate_app.
          unfold count_search at 2. unfold count_generate at 2. simpl. lia.
        - apply IH in Hrun. destruct Hrun as (e3 & E3 & S3 & G3 & _).
          eexists. split;
            [eapply extends_trans; [exact E1|eapply extends_trans; [exact E2|exact E3]]|].
          rewrite !count_search_app, !count_generate_app.
          unfold count_search at 2. unfold count_generate at 2. simpl. lia. }
      exists evs. repeat split; try assumption; discriminate.
    + unfold ret in Hstop. inversion Hstop; subst stop st2.
      apply IH in Hrun. destruct Hrun as (e3 & E3 & S3 & G3 & X3).
      eexists. split; [eapply extends_trans; [exact E1|exact E3]|].
      rewrite !count_search_app, !count_generate_app.
      split; [lia|]. split; [lia|].
      intros _ Hretries. destruct (X3 eq_refl Hretries) as [S3' G3'].
      specialize (X1 Hretries). lia.
Qed.

(** X5. A session is bounded in what it asks of the services: [search]
    sends at most [max_steps] queries to the backend and calls the model at
    most five times per step (search prompt, query extraction, [mixer],
    summarization, sufficiency test). *)
Theorem search_call_bounds : forall claim limit_search summarize st,
  exists evs,
    extends st (snd (Searcher.search svc deps claim limit_search summarize st)) evs
    /\ (count_search evs <= Z.to_nat (max_steps deps))%nat
    /\ (count_generate evs <= 5 * Z.to_nat (max_steps deps))%nat.
Proof.
  intros claim limit_search summarize st.
  destruct (Searcher.search svc deps claim limit_search summarize st) as [past' st'] eqn:Hrun.
  unfold Searcher.search in Hrun. apply search_loop_calls in Hrun.
  destruct Hrun as (evs & E & Sb & Gb & _). exists evs. simpl. auto.
Qed.

(** X6. With [limit_search] unset nothing ends a session early: for a retry
    budget that is not negative [search] sends exactly [max_steps] queries
    to the backend (none for a negative [max_steps]), and the model is
    called at most four times per step, never for a sufficiency test. *)
Theorem search_runs_all_steps_without_limit : forall claim summarize st,
  0 <= max_retries deps ->
  exists evs,
    extends st (snd (Searcher.search svc deps claim false summarize st)) evs
    /\ count_search evs = Z.to_nat (max_steps deps)
    /\ (count_generate evs <= 4 * Z.to_nat (max_steps deps))%nat.
Proof.
  intros claim summarize st Hretries.
  destruct (Searcher.search svc deps claim false summarize st) as [past' st'] eqn:Hrun.
  unfold Searcher.search in Hrun. apply search_loop_calls in Hrun.
  destruct Hrun as (evs & E & _ & _ & X). destruct (X eq_refl Hretries) as [Sx Gx].
  exists evs. simpl. auto.
Qed.

(** X7. A query that is already stored reaches the backend again only as
    the model's answer to the [mixer] prompt: whenever the query of a call
    of [_maybe_get_next_search] is among the stored queries, the call has
    re-prompted the model with [mixer] on a stored query and sends the
    answer to that prompt. *)
Theorem duplicate_query_comes_from_mixer : forall claim past summarize st,
  exists s st' evs,
    Searcher._maybe_get_next_search svc deps claim past summarize st = (Some s, st')
    /\ extends st st' evs
    /\ (In (query s) (map query past) ->
        exists stale,
          In stale (map query past)
          /\ In (EvGenerate (Searcher.mixer claim stale) (query s)) evs).
Proof.
  intros claim past summarize st.
  destruct (next_search_calls claim past summarize st)
    as (s & st' & response & e_post & q1 & e_mix & api & e_sum
        & Hs & Hext & _ & Hmix & _).
  eexists s, st', _. split; [exact Hs|]. split; [exact Hext|].
  intros Hdup. destruct Hmix as [(Hfresh & _ & Hq)|(Hstale & ->)].
  - rewrite Hq in Hdup. apply str_in_In in Hdup. congruence.
  - exists q1. split; [apply str_in_In; exact Hstale|].
    apply in_or_app. right. apply in_or_app. right. apply in_or_app. left.
    left. reflexivity.
Qed.

(** X9. With a negative retry budget no search is ever made: [search]
    returns the empty list and sends nothing to the backend. *)
Theorem search_without_retry_budget : forall claim limit_search summarize st,
  max_retries deps < 0 ->
  exists evs,
    fst (Searcher.search svc deps claim limit_search summarize st) = []
    /\ extends st (snd (Searcher.search svc deps claim limit_search summarize st)) evs
    /\ count_search evs = 0%nat.
Proof.
  intros claim limit_search summarize st Hneg.
  destruct (Searcher.search svc deps claim limit_search summarize st) as [past' st'] eqn:Hrun.
  unfold Searcher.search in Hrun. simpl.
  assert (past' = [] /\ exists evs, extends st st' evs /\ count_search evs = 0%nat)
    as (-> & evs & E & C).
  { refine (search_loop_invariant
              (fun past s1 => past = [] /\ exists evs, extends st s1 evs /\ count_search evs = 0%nat)
              claim limit_search summarize _ _ _ _ _ _ _ Hrun _).
    - intros past s0 past1 s1 Hstep (-> & evs & E & C).
      apply search_step_cases in Hstep.
      destruct Hstep as [(_ & -> & ->) | (Hretries & _)]; [eauto|lia].
    - intros past s0 b s1 Hsuff (-> & evs & E & C).
      apply sufficient_knowledge_effect in Hsuff. destruct Hsuff as (d & E2 & _).
      split; [reflexivity|]. eexists. split; [eapply extends_trans; [exact E|exact E2]|].
      rewrite count_search_app, C. reflexivity.
    - split; [reflexivity|]. exists []. split; [apply extends_refl|reflexivity]. }
  exists evs. auto.
Qed.

Lemma contains_remove_char : forall c s,
  contains (String c EmptyString) (remove_char c s) = false.
Proof.
  intros c s. unfold remove_char. induction s as [|d s IH]; [reflexivity|].
  cbn [filter_chars]. destruct (Ascii.eqb c d) eqn:Hc; cbn [negb]; [exact IH|].
  cbn [contains String.prefix]. rewrite IH.
  destruct (ascii_dec c d) as [Heq|Hne]; [|reflexivity].
  apply Ascii.eqb_eq in Heq. congruence.
Qed.

(** X8. The query that [post_process_query] returns is a single line: it
    contains no newline character, whatever the model answered. *)
Theorem post_process_query_single_line : forall model_response st,
  contains nl (fst (Searcher.post_process_query svc model_response st)) = false.
Proof.
  intros model_response st. unfold Searcher.post_process_query, bind.
  destruct (generate svc _ st) as [q st1]. unfold ret. simpl fst.
  apply contains_remove_char.
Qed.

End SearcherMore.

(** ** Searcher: the stored queries *)

Section StoredQueries.
Context {W Label Doc : Type} (svc : Services W) (deps : Deps Label Doc).






End StoredQueries.

(** ** The normalization of a verdict token *)

Lemma lower_char_space : forall c, is_space (lower_char c) = is_space c.
Proof. intros [[] [] [] [] [] [] [] []]; reflexivity. Qed.

Lemma lower_char_word : forall c, is_word (lower_char c) = is_word c.
Proof. intros [[] [] [] [] [] [] [] []]; reflexivity. Qed.

Lemma lower_char_idem : forall c, lower_char (lower_char c) = lower_char c.
Proof. intros [[] [] [] [] [] [] [] []]; reflexivity. Qed.

Lemma lower_idem : forall s, lower (lower s) = lower s.
Proof.
  induction s as [|c s IH]; [reflexivity|].
  unfold lower in *. simpl. rewrite lower_char_idem, IH. reflexivity.
Qed.

Lemma re_sub_punct_lower : forall s, re_sub_punct (lower s) = lower (re_sub_punct s).
Proof.
  induction s as [|c s IH]; [reflexivity|].
  unfold re_sub_punct, lower in *. simpl.
  rewrite lower_char_word, lower_char_space, IH.
  destruct (is_word c || is_space c); reflexivity.
Qed.

Lemma lstrip_lower : forall s, lstrip (lower s) = lower (lstrip s).
Proof.
  induction s as [|c s IH]; [reflexivity|].
  unfold lower in *. simpl. rewrite lower_char_space.
  destruct (is_space c); [exact IH|reflexivity].
Qed.

Lemma rstrip_lower : forall s, rstrip (lower s) = lower (rstrip s).
Proof.
  induction s as [|c s IH]; [reflexivity|].
  unfold lower in *. simpl. rewrite IH, lower_char_space.
  destruct (rstrip s); simpl; [destruct (is_space c)|]; reflexivity.
Qed.

Lemma strip_lower : forall s, strip (lower s) = lower (strip s).
Proof. intros s. unfold strip. rewrite lstrip_lower, rstrip_lower. reflexivity. Qed.

Lemma filter_chars_all : forall p s, all_chars p (filter_chars p s) = true.
Proof.
  induction s as [|c s IH]; [reflexivity|].
  simpl. destruct (p c) eqn:Hp; [simpl; rewrite Hp|]; exact IH.
Qed.

Lemma filter_chars_fixed : forall p s, all_chars p s = true -> filter_chars p s = s.
Proof.
  induction s as [|c s IH]; [reflexivity|].
  simpl. intros H. apply andb_prop in H. destruct H as [Hc Hs].
  rewrite Hc, (IH Hs). reflexivity.
Qed.

Lemma lstrip_all : forall p s, all_chars p s = true -> all_chars p (lstrip s) = true.
Proof.
  induction s as [|c s IH]; [reflexivity|].
  simpl. intros H. destruct (is_space c); [|exact H].
  apply andb_prop in H. apply IH. tauto.
Qed.

Lemma rstrip_all : forall p s, all_chars p s = true -> all_chars p (rstrip s) = true.
Proof.
  induction s as [|c s IH]; [reflexivity|].
  simpl. intros H. apply andb_prop in H. destruct H as [Hc Hs].
  specialize (IH Hs). destruct (rstrip s).
  - destruct (is_space c); simpl; [reflexivity|rewrite Hc; reflexivity].
  - simpl in *. rewrite Hc. exact IH.
Qed.

(** [s] does not start with a blank. *)
Lemma lstrip_fixed : forall s,
  match s with String c _ => is_space c = false | EmptyString => True end ->
  lstrip s = s.
Proof. intros [|c s] H; simpl; [reflexivity|rewrite H; reflexivity]. Qed.

Lemma lstrip_head : forall s,
  match lstrip s with String c _ => is_space c = false | EmptyString => True end.
Proof.
  induction s as [|c s IH]; simpl; [exact I|].
  destruct (is_space c) eqn:Hc; [exact IH|exact Hc].
Qed.

Lemma rstrip_head : forall s,
  match s with String c _ => is_space c = false | EmptyString => True end ->
  match rstrip s with String c _ => is_space c = false | EmptyString => True end.
Proof.
  intros [|c s] H; simpl; [exact I|].
  destruct (rstrip s); [rewrite H|]; simpl; exact H.
Qed.

Lemma rstrip_idem : forall s, rstrip (rstrip s) = rstrip s.
Proof.
  induction s as [|c s IH]; [reflexivity|].
  simpl. destruct (rstrip s) as [|d r] eqn:Hr.
  - destruct (is_space c) eqn:Hc; simpl; [reflexivity|rewrite Hc; reflexivity].
  - simpl. simpl in IH. rewrite IH. reflexivity.
Qed.

Lemma strip_idem : forall s, strip (strip s) = strip s.
Proof.
  intros s. unfold strip.
  rewrite (lstrip_fixed (rstrip (lstrip s))).
  - apply rstrip_idem.
  - apply rstrip_head. apply lstrip_head.
Qed.

Lemma all_chars_forall : forall p s,
  (forall c, In c (list_ascii_of_string s) -> p c = true) -> all_chars p s = true.
Proof.
  induction s as [|c s IH]; intros Hall; [reflexivity|].
  simpl. rewrite (Hall c) by (left; reflexivity). apply IH.
  intros d Hd. apply Hall. right. exact Hd.
Qed.

Lemma lstrip_blank : forall s, all_chars is_space s = true -> lstrip s = "".
Proof.
  induction s as [|c s IH]; [reflexivity|].
  simpl. intros H. apply andb_prop in H. destruct H as [-> Hs]. exact (IH Hs).
Qed.

(** The normalization that [_extract_verdict] applies to a token
    (punctuation removed, blanks stripped, lower case) leaves a token that
    is already normalized as it is. *)
Theorem verdict_normalization_idempotent : forall token,
  lower (strip (re_sub_punct (lower (strip (re_sub_punct token)))))
  = lower (strip (re_sub_punct token)).
Proof.
  intros token.
  rewrite re_sub_punct_lower.
  assert (re_sub_punct (strip (re_sub_punct token)) = strip (re_sub_punct token)) as ->.
  { unfold re_sub_punct at 1. apply filter_chars_fixed.
    unfold strip. apply rstrip_all, lstrip_all. unfold re_sub_punct. apply filter_chars_all. }
  rewrite strip_lower, strip_idem, lower_idem. reflexivity.
Qed.

(** ** Judge: verdicts and reasoning *)

Section JudgeMore.
Context {W Label Doc : Type} `{LabelEnum Label}
        (svc : Services W) (deps : Deps Label Doc) (classes : list Label).

Lemma Label_of_value_found : forall (l : Label),
  In l members -> exists l', Label_of_value (value l) = Some l' /\ value l' = value l
                              /\ In l' members.
Proof.
  intros l Hin. unfold Label_of_value.
  destruct (find (fun l0 => String.eqb (value l0) (value l)) members) as [l'|] eqn:Hfind.
  - apply find_some in Hfind. destruct Hfind as [Hin' Heq].
    apply String.eqb_eq in Heq. eauto.
  - exfalso. apply (find_none _ _ Hfind) in Hin. rewrite String.eqb_refl in Hin. discriminate.
Qed.

Lemma Label_of_value_unique : forall (l : Label),
  unique_values Label -> In l members -> Label_of_value (value l) = Some l.
Proof.
  intros l Huniq Hin. destruct (Label_of_value_found l Hin) as (l' & Hfind & Heq & Hin').
  rewrite Hfind. f_equal. apply Huniq; assumption.
Qed.

(** X10. A response whose last code span is ASCII text that names a member
    of the enumeration exactly, up to punctuation, surrounding blanks and
    case, yields that member, whether or not it is one of the candidate
    [classes] (values of members being pairwise different). *)
Theorem extract_verdict_exact_value : forall response (l : Label),
  let span := extract_last_code_span deps response in
  unique_values Label ->
  In l members ->
  value l <> "" ->
  isascii span = true ->
  lower (strip (re_sub_punct span)) = value l ->
  Judge._extract_verdict deps classes response = l.
Proof.
  intros response l span Huniq Hin Hne _ Htoken. subst span.
  unfold Judge._extract_verdict. rewrite Htoken.
  destruct (value l) eqn:Hv; [congruence|]. simpl is_empty. cbv iota.
  rewrite <- Hv, (Label_of_value_unique l Huniq Hin). reflexivity.
Qed.

(** X11. A response whose last code span holds no letter, digit or
    underscore (it is empty, or made of punctuation and blanks only) yields
    REFUSED_TO_ANSWER, without any lookup. *)
Theorem extract_verdict_without_word : forall response,
  (forall c, In c (list_ascii_of_string (extract_last_code_span deps response)) ->
             is_word c = false) ->
  Judge._extract_verdict deps classes response = REFUSED_TO_ANSWER.
Proof.
  intros response Hnoword. unfold Judge._extract_verdict.
  assert (strip (re_sub_punct (extract_last_code_span deps response)) = "") as ->;
    [|reflexivity].
  generalize dependent (extract_last_code_span deps response). intros span Hnoword.
  unfold strip. rewrite lstrip_blank; [reflexivity|].
  unfold re_sub_punct. induction span as [|c span IH]; [reflexivity|].
  simpl. rewrite (Hnoword c) by (left; reflexivity). simpl.
  assert (all_chars is_space (filter_chars (fun c0 => is_word c0 || is_space c0) span) = true)
    as IH' by (apply IH; intros d Hd; apply Hnoword; right; exact Hd).
  destruct (is_space c) eqn:Hc; [simpl; rewrite Hc|]; exact IH'.
Qed.

Lemma generate_verdict_run : forall prompt st,
  exists r st',
    Judge._generate_verdict svc deps classes prompt st = (Judge.verdict_of deps classes r, st')
    /\ extends st st' [EvGenerate prompt r]
    /\ latest_reasoning st' = Some r.
Proof.
  intros prompt st. unfold Judge._generate_verdict, Judge.verdict_of.
  unfold bind at 1.
  destruct (generate svc prompt st) as [r st1] eqn:Hg.
  apply generate_extends in Hg. destruct Hg as (E & _ & _).
  unfold bind, set_latest_reasoning.
  exists r. eexists. split; [|split].
  - destruct (is_guardrail_hit deps r); reflexivity.
  - unfold extends in *. simpl. exact E.
  - reflexivity.
Qed.

Lemma judge_loop_run : forall prompt fuel n_retries st,
  0 <= n_retries ->
  Z.of_nat fuel = Z.max 0 (max_retries deps - n_retries) ->
  exists st' refused last,
    Judge.judge_loop svc deps classes fuel prompt n_retries st
    = (Judge.verdict_of deps classes last, st')
    /\ extends st st' (map (EvGenerate prompt) (refused ++ [last]))
    /\ Forall (fun r => Judge.verdict_of deps classes r = REFUSED_TO_ANSWER) refused
    /\ (length refused <= fuel)%nat
    /\ (Judge.verdict_of deps classes last = REFUSED_TO_ANSWER -> length refused = fuel)
    /\ latest_reasoning st' = Some last.
Proof.
  intros prompt. induction fuel as [|fuel IH]; intros n_retries st Hn Hfuel.
  - destruct (generate_verdict_run prompt st) as (r & st1 & Hv & E & L).
    exists st1, [], r. cbn [Judge.judge_loop]. unfold bind. rewrite Hv.
    split.
    + destruct (Label_eqb _ _); [|reflexivity].
      destruct (max_retries deps <? n_retries + 1); reflexivity.
    + split; [exact E|]. split; [constructor|]. split; [simpl; lia|]. split; [reflexivity|exact L].
  - destruct (generate_verdict_run prompt st) as (r & st1 & Hv & E & L).
    cbn [Judge.judge_loop]. unfold bind. rewrite Hv.
    destruct (Label_eqb (Judge.verdict_of deps classes r) REFUSED_TO_ANSWER) eqn:Hrefused.
    + destruct (max_retries deps <? n_retries + 1) eqn:Hlt; [apply Z.ltb_lt in Hlt; lia|].
      destruct (IH (n_retries + 1) st1) as (st' & refused & last & Hrun & E' & Hall & Hlen & Hfull & L');
        [lia|lia|].
      exists st', (r :: refused), last. rewrite Hrun.
      split; [reflexivity|]. split; [exact (extends_trans _ _ _ _ _ _ E E')|].
      split; [constructor; [apply Label_eqb_eq; exact Hrefused|exact Hall]|].
      split; [simpl; lia|]. split; [intros Hr; simpl; rewrite (Hfull Hr); reflexivity|exact L'].
    + exists st1, [], r. split; [reflexivity|]. split; [exact E|]. split; [constructor|].
      split; [simpl; lia|]. split; [|exact L].
      intros Hr. apply Label_eqb_eq in Hr. congruence.
Qed.

(** X12. [judge] calls the model on the judge prompt until a generation
    yields a verdict, at most [1 + max_retries] times (once for a negative
    budget).  It returns the verdict of the last generation; it returns
    REFUSED_TO_ANSWER only after the whole budget is spent; and the raw
    response of the last generation is left in [latest_reasoning]. *)
Theorem judge_outcome : forall doc st,
  exists st' refused last,
    Judge.judge svc deps classes doc st = (Judge.verdict_of deps classes last, st')
    /\ extends st st' (map (EvGenerate (JudgePrompt deps doc classes)) (refused ++ [last]))
    /\ Forall (fun r => Judge.verdict_of deps classes r = REFUSED_TO_ANSWER) refused
    /\ (length refused <= Z.to_nat (max_retries deps))%nat
    /\ (Judge.verdict_of deps classes last = REFUSED_TO_ANSWER ->
        length refused = Z.to_nat (max_retries deps))
    /\ fst (Judge.get_latest_reasoning st') = Some last.
Proof.
  intros doc st. unfold Judge.judge.
  apply judge_loop_run; lia.
Qed.

(** For a retry budget that is not negative, [reason] is one call of
    [maybe_get_final_answer] followed by the lookup of its answer. *)
Lemma judge_reason_unfold : forall claim evidence st fa st',
  0 <= max_retries deps ->
  Judge.maybe_get_final_answer svc deps classes claim evidence st = (Some fa, st') ->
  Judge.reason svc deps classes claim evidence st
  = (match Label_of_value (lower (Judge.answer fa)) with
     | Some predicted_label => Ok (predicted_label, Judge.response fa)
     | None => Raise ValueError
     end, st').
Proof.
  intros claim evidence st fa st' Hretries Hfa.
  unfold Judge.reason.
  replace (Z.to_nat (max_retries deps + 1)) with (S (Z.to_nat (max_retries deps))) by lia.
  cbn [Judge.reason_loop].
  destruct (0 <=? max_retries deps) eqn:Hle; [|apply Z.leb_gt in Hle; lia].
  unfold bind at 1. unfold bind at 1. rewrite Hfa.
  assert (Judge.reason_loop svc deps classes (Z.to_nat (max_retries deps)) claim evidence
            (Some fa) (0 + 1) st' = (Some fa, 0 + 1, st')) as ->
    by (destruct (Z.to_nat (max_retries deps)); reflexivity).
  destruct (Label_of_value _); reflexivity.
Qed.

(** The list [valid_labels] of [maybe_get_final_answer]. *)
Lemma valid_labels_lowercase :
  lowercase_values Label ->
  map (fun label : Label => lower (value label)) members = map value members.
Proof.
  intros Hlow. apply map_ext_in. intros l Hin. apply Hlow. exact Hin.
Qed.

Lemma Label_of_value_in_values : forall s,
  str_in s (map value members) = true ->
  exists l : Label, Label_of_value s = Some l /\ value l = s /\ In l members.
Proof.
  intros s Hin. apply str_in_In in Hin. apply in_map_iff in Hin.
  destruct Hin as (l & <- & Hl). apply Label_of_value_found. exact Hl.
Qed.

(** X13. A response to the reason prompt that is not a guardrail hit and
    whose first bracketed span is ASCII text that names a label, up to
    punctuation, blanks and case, is accepted as it is: [Judge.reason]
    returns the member with that value and the raw response as
    justification after a single generation, without a corrective prompt
    (values in lower case, retry budget not negative). *)
Theorem judge_reason_accepts_bracketed_label : forall claim evidence st,
  let prompt := ReasonPrompt deps claim (extract_knowledge deps evidence) (Some classes) in
  let r := fst (model_generate svc prompt (world st)) in
  let span := extract_first_square_brackets deps r in
  let token := lower (strip (re_sub_punct span)) in
  0 <= max_retries deps ->
  lowercase_values Label ->
  is_guardrail_hit deps r = false ->
  r <> "" ->
  isascii span = true ->
  str_in token (map value members) = true ->
  exists l st',
    Judge.reason svc deps classes claim evidence st = (Ok (l, r), st')
    /\ value l = token
    /\ In l members
    /\ extends st st' [EvGenerate prompt r].
Proof.
  intros claim evidence st prompt r span token Hretries Hlow Hhit Hne _ Hvalid.
  subst span.
  destruct (Label_of_value_in_values token Hvalid) as (l & Hfind & Hval & Hin).
  destruct (generate svc prompt st) as [r0 st1] eqn:Hg.
  pose proof (generate_extends svc _ _ _ _ Hg) as (E & Hr & _).
  fold r in Hr. subst r0.
  assert (Judge.maybe_get_final_answer svc deps classes claim evidence st
          = (Some {| Judge.response := r;
                     Judge.answer := strip (re_sub_punct (extract_first_square_brackets deps r)) |},
             st1)) as Hfa.
  { unfold Judge.maybe_get_final_answer. fold prompt. unfold bind at 1. rewrite Hg.
    rewrite Hhit, (valid_labels_lowercase Hlow). fold token. rewrite Hvalid.
    destruct r; [congruence|]. reflexivity. }
  exists l, st1. rewrite (judge_reason_unfold _ _ _ _ _ Hretries Hfa).
  cbn [Judge.answer Judge.response]. fold token. rewrite Hfind. auto.
Qed.

(** X14. When the response to the reason prompt is not a guardrail hit and
    carries no label, [Judge.reason] asks the model once more, for a single
    word.  If the lowercased answer is the value of a label, that label is
    returned; otherwise REFUSED_TO_ANSWER is.  In both cases the
    justification is the raw response to the reason prompt, not the
    corrected answer (values in lower case and pairwise different, retry
    budget not negative). *)
Theorem judge_reason_corrects_once : forall claim evidence st,
  let prompt := ReasonPrompt deps claim (extract_knowledge deps evidence) (Some classes) in
  let r := fst (model_generate svc prompt (world st)) in
  let token := lower (strip (re_sub_punct (extract_first_square_brackets deps r))) in
  0 <= max_retries deps ->
  lowercase_values Label ->
  unique_values Label ->
  is_guardrail_hit deps r = false ->
  (negb (is_empty r) && str_in token (map value members))%bool = false ->
  exists l st' select adjusted,
    Judge.reason svc deps classes claim evidence st = (Ok (l, r), st')
    /\ extends st st' [EvGenerate prompt r; EvGenerate (select ++ r) adjusted]
    /\ In l members
    /\ ((str_in (lower adjusted) (map value members) = true /\ value l = lower adjusted)
        \/ (str_in (lower adjusted) (map value members) = false /\ l = REFUSED_TO_ANSWER)).
Proof.
  intros claim evidence st prompt r token Hretries Hlow Huniq Hhit Hinvalid.
  destruct (generate svc prompt st) as [r0 st1] eqn:Hg.
  pose proof (generate_extends svc _ _ _ _ Hg) as (E & Hr & _).
  fold r in Hr. subst r0.
  pose (select := "Respond with one word! From " ++ repr_list (map value members)
                  ++ ", select the most fitting for the following string:" ++ nl).
  destruct (generate svc (select ++ r) st1) as [adjusted st2] eqn:Hg2.
  pose proof (generate_extends svc _ _ _ _ Hg2) as (E2 & _ & _).
  pose (ans := if negb (str_in (lower adjusted) (map value members))
               then value REFUSED_TO_ANSWER else lower adjusted).
  assert (Judge.maybe_get_final_answer svc deps classes claim evidence st
          = (Some {| Judge.response := r; Judge.answer := ans |}, st2)) as Hfa.
  { unfold Judge.maybe_get_final_answer. fold prompt. unfold bind at 1. rewrite Hg.
    rewrite Hhit, (valid_labels_lowercase Hlow). fold token. rewrite Hinvalid.
    fold select. unfold bind. rewrite Hg2. reflexivity. }
  rewrite (judge_reason_unfold _ _ _ _ _ Hretries Hfa).
  cbn [Judge.answer Judge.response]. unfold ans.
  destruct (str_in (lower adjusted) (map value members)) eqn:Hadj; cbn [negb].
  - rewrite lower_idem.
    destruct (Label_of_value_in_values _ Hadj) as (l & Hfind & Hval & Hin).
    rewrite Hfind. exists l, st2, select, adjusted.
    split; [reflexivity|]. split; [exact (extends_trans _ _ _ _ _ _ E E2)|]. auto.
  - rewrite (Hlow _ REFUSED_TO_ANSWER_member),
      (Label_of_value_unique _ Huniq REFUSED_TO_ANSWER_member).
    exists REFUSED_TO_ANSWER, st2, select, adjusted.
    split; [reflexivity|]. split; [exact (extends_trans _ _ _ _ _ _ E E2)|].
    split; [apply REFUSED_TO_ANSWER_member|]. right. auto.
Qed.



(** X15. On a guardrail hit [Judge.reason] makes a single generation and
    converts the token "refused": it returns the member with that value
    and the raw response if there is such a member, and raises
    [ValueError] if there is none (retry budget not negative). *)
Theorem judge_reason_on_guardrail_hit : forall claim evidence st,
  let prompt := ReasonPrompt deps claim (extract_knowledge deps evidence) (Some classes) in
  let r := fst (model_generate svc prompt (world st)) in
  0 <= max_retries deps ->
  is_guardrail_hit deps r = true ->
  exists st',
    extends st st' [EvGenerate prompt r]
    /\ Judge.reason svc deps classes claim evidence st
       = (match Label_of_value "refused" with
          | Some l => Ok (l, r)
          | None => Raise ValueError
          end, st').
Proof.
  intros claim evidence st prompt r Hretries Hhit.
  destruct (generate svc prompt st) as [r0 st1] eqn:Hg.
  pose proof (generate_extends svc _ _ _ _ Hg) as (E & Hr & _).
  fold r in Hr. subst r0.
  assert (Judge.maybe_get_final_answer svc deps classes claim evidence st
          = (Some {| Judge.response := r; Judge.answer := "refused" |}, st1)) as Hfa.
  { unfold Judge.maybe_get_final_answer. fold prompt. unfold bind at 1. rewrite Hg, Hhit.
    reflexivity. }
  exists st1. split; [exact E|].
  rewrite (judge_reason_unfold _ _ _ _ _ Hretries Hfa). reflexivity.
Qed.

End JudgeMore.

(** ** Reasoner *)

Section ReasonerMore.
Context {W Label Doc : Type} `{LabelEnum Label}
        (svc : Services W) (deps : Deps Label Doc).

Lemma results_to_join_absent : forall evidence s,
  In s evidence -> result s = None ->
  Reasoner.results_to_join evidence = Raise TypeError.
Proof.
  induction evidence as [|e rest IH]; intros s Hin Hnone; [destruct Hin|].
  simpl. destruct Hin as [->|Hin].
  - rewrite Hnone. reflexivity.
  - rewrite (IH s Hin Hnone). destruct (result e); reflexivity.
Qed.

Lemma reasoner_reason_unfold : forall claim evidence st r st',
  0 <= max_retries deps ->
  Reasoner.maybe_get_final_answer svc deps claim evidence st = (r, st') ->
  Reasoner.reason svc deps claim evidence st
  = (match r with
     | Raise e => Raise e
     | Ok None => Raise AttributeError
     | Ok (Some fa) =>
         match Label_of_value (Reasoner.answer fa) with
         | Some predicted_label => Ok (predicted_label, Reasoner.response fa)
         | None => Raise ValueError
         end
     end, st').
Proof.
  intros claim evidence st r st' Hretries Hcall.
  unfold Reasoner.reason.
  replace (Z.to_nat (max_retries deps + 1)) with (S (Z.to_nat (max_retries deps))) by lia.
  cbn [Reasoner.reason_loop].
  destruct (0 <=? max_retries deps) eqn:Hle; [|apply Z.leb_gt in Hle; lia].
  unfold bind at 1. unfold bind at 1. rewrite Hcall.
  destruct r as [[fa|]|e]; [| |reflexivity].
  - assert (Reasoner.reason_loop svc deps (Z.to_nat (max_retries deps)) claim evidence
              (Some fa) (0 + 1) st' = (Ok (Some fa, 0 + 1), st')) as ->
      by (destruct (Z.to_nat (max_retries deps)); reflexivity).
    destruct (Label_of_value _); reflexivity.
  - (* not reached: the call never returns [None] *)
    destruct (Z.to_nat (max_retries deps)) as [|fuel]; cbn [Reasoner.reason_loop].
    + destruct (0 + 1 <=? max_retries deps); reflexivity.
    + destruct (0 + 1 <=? max_retries deps); [|reflexivity].
      unfold Reasoner.maybe_get_final_answer in Hcall.
      destruct (Reasoner.results_to_join evidence); [|discriminate].
      unfold bind in Hcall. destruct (generate svc _ st) as [m st1].
      destruct (startswith m "I cannot"); [discriminate|].
      destruct (negb (is_empty m) && _)%bool; discriminate.
Qed.

(** X16. Evidence with an absent result makes [Reasoner.reason] raise
    [TypeError] while it joins the results, before the model is called:
    the state of the session is left as it was (retry budget not
    negative). *)
Theorem reasoner_reason_absent_result : forall claim evidence st s,
  0 <= max_retries deps ->
  In s evidence ->
  result s = None ->
  Reasoner.reason svc deps claim evidence st = (Raise TypeError, st).
Proof.
  intros claim evidence st s Hretries Hin Hnone.
  apply (reasoner_reason_unfold claim evidence st (Raise TypeError) st Hretries).
  unfold Reasoner.maybe_get_final_answer.
  rewrite (results_to_join_absent evidence s Hin Hnone). reflexivity.
Qed.

End ReasonerMore.

(** ** Model names ([common/modeling.py]) *)

Section ModelNames.
Import Modeling.
Variable table : list ModelRow.

Lemma split_char_nonempty : forall sep s, split_char sep s <> [].
Proof.
  intros sep s. destruct s as [|c s]; simpl; [discriminate|].
  destruct (Ascii.eqb c sep); [discriminate|].
  destruct (split_char sep s); discriminate.
Qed.

Lemma split_char_one : forall s q, split_char colon s = [q] -> s = q.
Proof.
  induction s as [|d s IH]; intros q Hsplit; simpl in Hsplit; [congruence|].
  destruct (Ascii.eqb d colon).
  - inversion Hsplit as [[Hq Hrest]]. exfalso. exact (split_char_nonempty _ _ Hrest).
  - destruct (split_char colon s) as [|part parts] eqn:Hs;
      [exfalso; exact (split_char_nonempty _ _ Hs)|].
    inversion Hsplit; subst. f_equal. apply IH. reflexivity.
Qed.

(** A name that splits in two parts is the two parts around a colon. *)
Lemma split_char_two : forall s p q,
  split_char colon s = [p; q] -> s = p ++ ":" ++ q.
Proof.
  induction s as [|c s IH]; intros p q Hsplit; simpl in Hsplit; [discriminate|].
  destruct (Ascii.eqb c colon) eqn:Hc.
  - apply Ascii.eqb_eq in Hc. subst c. inversion Hsplit as [[Hp Hrest]].
    apply split_char_one in Hrest. subst. reflexivity.
  - destruct (split_char colon s) as [|part parts] eqn:Hs; [discriminate|].
    inversion Hsplit; subst. simpl. f_equal. apply IH. reflexivity.
Qed.

Lemma split_char_no_colon : forall s, no_colon s = true -> split_char colon s = [s].
Proof.
  induction s as [|c s IH]; intros Hs; [reflexivity|].
  simpl in *. apply andb_prop in Hs. destruct Hs as [Hc Hs].
  apply negb_true_iff in Hc. rewrite Hc, (IH Hs). reflexivity.
Qed.

Lemma split_char_join_two : forall p q,
  no_colon p = true -> no_colon q = true -> split_char colon (p ++ ":" ++ q) = [p; q].
Proof.
  induction p as [|c p IH]; intros q Hp Hq.
  - simpl. rewrite (split_char_no_colon q Hq). reflexivity.
  - simpl in Hp. apply andb_prop in Hp. destruct Hp as [Hc Hp].
    apply negb_true_iff in Hc. simpl. rewrite Hc.
    change (split_char colon (p ++ String ":" q)) with (split_char colon (p ++ ":" ++ q)).
    rewrite (IH q Hp Hq). reflexivity.
Qed.

(** The first selected row is a row of the table that passes the test. *)
Lemma filter_head : forall (test : ModelRow -> bool) rows row rest,
  filter test rows = row :: rest -> In row rows /\ test row = true.
Proof.
  intros test rows row rest Hsel.
  assert (In row (filter test rows)) as Hin by (rewrite Hsel; left; reflexivity).
  apply filter_In in Hin. exact Hin.
Qed.

(** With pairwise different keys, the selection by a key that a row of the
    table has starts with that row. *)
Lemma filter_unique_key : forall (K : Type) (key : ModelRow -> K) (test : ModelRow -> bool)
    rows row,
  NoDup (map key rows) ->
  In row rows ->
  (forall r, In r rows -> (test r = true <-> key r = key row)) ->
  exists rest, filter test rows = row :: rest.
Proof.
  intros K key test. induction rows as [|r rows IH]; intros row Hnd Hin Htest; [destruct Hin|].
  simpl in Hnd. inversion Hnd as [|k ks Hnotin Hnd']; subst.
  simpl. destruct (test r) eqn:Hr.
  - assert (key r = key row) as Hkey by (apply Htest; [left; reflexivity|exact Hr]).
    destruct Hin as [->|Hin]; [eauto|].
    exfalso. apply Hnotin. rewrite Hkey. apply in_map. exact Hin.
  - destruct Hin as [->|Hin].
    + assert (test row = true) as Habs by (apply Htest; [left|]; reflexivity). congruence.
    + apply IH; [exact Hnd'|exact Hin|].
      intros r0 Hr0. apply Htest. right. exact Hr0.
Qed.

(** X18. With pairwise different shorthands in the table, a full name that
    [model_full_name_to_shorthand] resolves is given back by
    [model_shorthand_to_full_name] on the shorthand. *)
Theorem model_name_round_trip : forall name shorthand,
  NoDup (map Shorthand table) ->
  model_full_name_to_shorthand table name = Returns shorthand ->
  model_shorthand_to_full_name table shorthand = Returns name.
Proof.
  intros name shorthand Hnd Hres. unfold model_full_name_to_shorthand in Hres.
  destruct (split_char colon name) as [|platform [|specifier [|x parts]]] eqn:Hsplit;
    try discriminate.
  apply split_char_two in Hsplit.
  destruct (filter _ table) as [|row rest] eqn:Hsel; [discriminate|].
  inversion Hres; subst shorthand. clear Hres.
  apply filter_head in Hsel. destruct Hsel as [Hin Htest].
  apply andb_prop in Htest. destruct Htest as [Hp Hs].
  apply String.eqb_eq in Hp. apply String.eqb_eq in Hs.
  destruct (filter_unique_key string Shorthand
              (fun r => String.eqb (Shorthand r) (Shorthand row)) table row Hnd Hin)
    as (rest' & Hsel').
  { intros r _. apply String.eqb_eq. }
  unfold model_shorthand_to_full_name. rewrite Hsel'. simpl.
  rewrite Hp, Hs, Hsplit. reflexivity.
Qed.

(** X19. Conversely, when no two rows of the table have the same platform
    and specifier and none of these contains a colon, a shorthand that
    [model_shorthand_to_full_name] resolves is given back by
    [model_full_name_to_shorthand] on the full name. *)
Theorem model_shorthand_round_trip : forall shorthand name,
  NoDup (map (fun row => (Platform row, Specifier row)) table) ->
  (forall row, In row table ->
     no_colon (Platform row) = true /\ no_colon (Specifier row) = true) ->
  model_shorthand_to_full_name table shorthand = Returns name ->
  model_full_name_to_shorthand table name = Returns shorthand.
Proof.
  intros shorthand name Hnd Hwf Hres. unfold model_shorthand_to_full_name in Hres.
  destruct (filter _ table) as [|row rest] eqn:Hsel; [discriminate|].
  cbn [map iloc0] in Hres. inversion Hres; subst name. clear Hres.
  apply filter_head in Hsel. destruct Hsel as [Hin Hshort].
  apply String.eqb_eq in Hshort.
  destruct (Hwf row Hin) as [Hp Hs].
  unfold model_full_name_to_shorthand.
  change (Platform row ++ String ":" (Specifier row))
    with (Platform row ++ ":" ++ Specifier row).
  rewrite (split_char_join_two _ _ Hp Hs).
  destruct (filter_unique_key (string * string) (fun r => (Platform r, Specifier r))
              (fun r => String.eqb (Platform r) (Platform row)
                        && String.eqb (Specifier r) (Specifier row))
              table row Hnd Hin) as (rest' & Hsel').
  { intros r _. rewrite andb_true_iff, !String.eqb_eq. split.
    - intros [-> ->]. reflexivity.
    - intros Heq. inversion Heq. auto. }
  rewrite Hsel'. rewrite Hshort. reflexivity.
Qed.

Lemma filter_shorthand_nonempty : forall name,
  In name (map Shorthand table) ->
  exists row rest,
    filter (fun row => String.eqb (Shorthand row) name) table = row :: rest.
Proof.
  intros name Hin. apply in_map_iff in Hin. destruct Hin as (r & Hr & Hin).
  destruct (filter (fun row => String.eqb (Shorthand row) name) table) as [|row rest] eqn:Hsel;
    [|eauto].
  exfalso.
  assert (In r (filter (fun row => String.eqb (Shorthand row) name) table)) as Habs.
  { apply filter_In. split; [exact Hin|]. apply String.eqb_eq. exact Hr. }
  rewrite Hsel in Habs. destruct Habs.
Qed.

Lemma full_name_shorthand_in_table : forall name shorthand,
  model_full_name_to_shorthand table name = Returns shorthand ->
  In shorthand (map Shorthand table).
Proof.
  intros name shorthand. unfold model_full_name_to_shorthand.
  destruct (split_char colon name) as [|platform [|specifier [|x parts]]]; try discriminate.
  destruct (filter _ table) as [|row rest] eqn:Hsel; [discriminate|].
  intros Hres. inversion Hres; subst. apply filter_head in Hsel. apply in_map. tauto.
Qed.

(** X20. The lookups fail in different ways.
    [model_full_name_to_shorthand] returns a shorthand of the table or
    raises [ValueError]; [model_shorthand_to_full_name] raises
    [IndexError] exactly on a shorthand that is not in the table; and
    [get_model_context_window], which accepts both kinds of name, returns
    the context window of a row of the table or raises [ValueError], never
    [IndexError]. *)
Theorem model_lookup_errors : forall name,
  (match model_full_name_to_shorthand table name with
   | Returns shorthand => In shorthand (map Shorthand table)
   | Raises e => e = Exn.ValueError
   end)
  /\ (model_shorthand_to_full_name table name = Raises Exn.IndexError
      <-> ~ In name (map Shorthand table))
  /\ (match get_model_context_window table name with
      | Returns window => In window (map Context_window table)
      | Raises e => e = Exn.ValueError
      end).
Proof.
  intros name.
  assert (match model_full_name_to_shorthand table name with
          | Returns shorthand => In shorthand (map Shorthand table)
          | Raises e => e = Exn.ValueError
          end) as Hfull.
  { unfold model_full_name_to_shorthand.
    destruct (split_char colon name) as [|platform [|specifier [|x parts]]]; try reflexivity.
    destruct (filter _ table) as [|row rest] eqn:Hsel; [reflexivity|].
    apply filter_head in Hsel. apply in_map. tauto. }
  split; [exact Hfull|]. split.
  - unfold model_shorthand_to_full_name. split.
    + intros Hraise Hin.
      destruct (filter_shorthand_nonempty name Hin) as (row & rest & Hsel).
      rewrite Hsel in Hraise. discriminate.
    + intros Hnotin.
      destruct (filter _ table) as [|row rest] eqn:Hsel; [reflexivity|].
      exfalso. apply Hnotin. apply filter_head in Hsel. destruct Hsel as [Hin Heq].
      apply String.eqb_eq in Heq. rewrite <- Heq. apply in_map. exact Hin.
  - unfold get_model_context_window.
    assert (forall s, In s (map Shorthand table) ->
              match iloc0 (map Context_window
                             (filter (fun row => String.eqb (Shorthand row) s) table)) with
              | Returns window => In window (map Context_window table)
              | Raises e => e = Exn.ValueError
              end) as Hwin.
    { intros s Hin. destruct (filter_shorthand_nonempty s Hin) as (row & rest & Hsel).
      rewrite Hsel. simpl. apply filter_head in Hsel. apply in_map. tauto. }
    destruct (str_in name (map Shorthand table)) eqn:Hname; cbn [negb].
    + apply Hwin. apply str_in_In. exact Hname.
    + destruct (model_full_name_to_shorthand table name) as [s|e]; [|exact Hfull].
      apply Hwin. exact Hfull.
Qed.

(** X21. With pairwise different shorthands, a model has the same context
    window under its full name and under its shorthand (for a full name
    that is not itself a shorthand of the table). *)
Theorem context_window_of_full_name : forall name shorthand,
  NoDup (map Shorthand table) ->
  ~ In name (map Shorthand table) ->
  model_full_name_to_shorthand table name = Returns shorthand ->
  get_model_context_window table name = get_model_context_window table shorthand
  /\ exists window, get_model_context_window table name = Returns window.
Proof.
  intros name shorthand Hnd Hnotin Hres.
  pose proof (full_name_shorthand_in_table name shorthand Hres) as Hin.
  unfold get_model_context_window.
  assert (str_in name (map Shorthand table) = false) as ->.
  { destruct (str_in name (map Shorthand table)) eqn:Hs; [|reflexivity].
    apply str_in_In in Hs. contradiction. }
  assert (str_in shorthand (map Shorthand table) = true) as -> by (apply str_in_In; exact Hin).
  cbn [negb]. rewrite Hres. split; [reflexivity|].
  destruct (filter_shorthand_nonempty shorthand Hin) as (row & rest & Hsel).
  rewrite Hsel. simpl. eauto.
Qed.

End ModelNames.

(** ** [Model.generate] and [FakeModel.generate] *)

Section GenerateFacts.
Import Modeling.
Context {W : Type} (lm : LanguageModel W).

Lemma attempt_loop_done : forall fuel prompt max_attempts c text num_attempts w,
  attempt_loop lm fuel prompt max_attempts (String c text) num_attempts w
  = ((String c text, num_attempts), w).
Proof. intros [|fuel]; reflexivity. Qed.

Lemma attempt_loop_run : forall prompt max_attempts fuel num_attempts w,
  Z.of_nat fuel = Z.max 0 (max_attempts - num_attempts) ->
  exists k outcomes response w',
    attempt_loop lm fuel prompt max_attempts "" num_attempts w
    = ((response, num_attempts + Z.of_nat k), w')
    /\ attempts lm k prompt w = (outcomes, w')
    /\ (k <= fuel)%nat
    /\ ((Forall (fun o => no_response o = true) outcomes /\ k = fuel /\ response = "")
        \/ (exists failed,
              outcomes = (failed ++ [Some response])%list
              /\ Forall (fun o => no_response o = true) failed
              /\ response <> "")).
Proof.
  intros prompt max_attempts. induction fuel as [|fuel IH]; intros num_attempts w Hfuel.
  - exists O, [], "", w. simpl.
    destruct (num_attempts <? max_attempts); rewrite Z.add_0_r;
      (split; [reflexivity|]); (split; [reflexivity|]); (split; [lia|]); left; auto.
  - cbn [attempt_loop is_empty andb].
    destruct (num_attempts <? max_attempts) eqn:Hlt; [|apply Z.ltb_ge in Hlt; lia].
    destruct (submit lm prompt w) as [outcome w1] eqn:Hsub.
    assert (forall c text,
              outcome = Some (String c text) ->
              exists k outcomes response w',
                attempt_loop lm fuel prompt max_attempts (String c text) (num_attempts + 1) w1
                = ((response, num_attempts + Z.of_nat k), w')
                /\ attempts lm k prompt w = (outcomes, w')
                /\ (k <= S fuel)%nat
                /\ ((Forall (fun o => no_response o = true) outcomes
                     /\ k = S fuel /\ response = "")
                    \/ (exists failed,
                          outcomes = (failed ++ [Some response])%list
                          /\ Forall (fun o => no_response o = true) failed
                          /\ response <> ""))) as Hdone.
    { intros c text ->. exists 1%nat, [Some (String c text)], (String c text), w1.
      rewrite attempt_loop_done. split; [reflexivity|].
      split; [simpl; rewrite Hsub; reflexivity|]. split; [lia|].
      right. exists []. split; [reflexivity|]. split; [constructor|discriminate]. }
    assert (no_response outcome = true ->
            exists k outcomes response w',
              attempt_loop lm fuel prompt max_attempts "" (num_attempts + 1) w1
              = ((response, num_attempts + Z.of_nat k), w')
              /\ attempts lm k prompt w = (outcomes, w')
              /\ (k <= S fuel)%nat
              /\ ((Forall (fun o => no_response o = true) outcomes
                   /\ k = S fuel /\ response = "")
                  \/ (exists failed,
                        outcomes = (failed ++ [Some response])%list
                        /\ Forall (fun o => no_response o = true) failed
                        /\ response <> ""))) as Hretry.
    { intros Hnone.
      destruct (IH (num_attempts + 1) w1) as (k & outs & response & w' & Hrun & Hatt & Hk & Hcase);
        [lia|].
      exists (S k), (outcome :: outs), response, w'.
      split; [rewrite Hrun; do 2 f_equal; lia|].
      split; [simpl; rewrite Hsub, Hatt; reflexivity|]. split; [lia|].
      destruct Hcase as [(Hall & -> & ->)|(failed & -> & Hall & Hne)].
      - left. split; [constructor; assumption|]. auto.
      - right. exists (outcome :: failed). split; [reflexivity|].
        split; [constructor; assumption|exact Hne]. }
    destruct outcome as [[|c text]|].
    + apply Hretry. reflexivity.
    + apply (Hdone c text). reflexivity.
    + apply Hretry. reflexivity.
Qed.

(** X22. On a remote model [generate] tries until an attempt gives a
    non-empty text, at most [max_attempts] times: it returns the text of
    the first attempt that gives one and makes no further attempt, and it
    returns the empty string, without raising, when all [max_attempts]
    attempts fail with one of the caught errors or give an empty text. *)
Theorem generate_remote_attempts : forall prompt max_attempts w,
  open_source lm = false ->
  exists k response,
    let outcomes := fst (attempts lm k (add_format lm prompt) w) in
    Modeling.generate lm prompt max_attempts w
    = (response, snd (attempts lm k (add_format lm prompt) w))
    /\ (k <= Z.to_nat max_attempts)%nat
    /\ ((Forall (fun o => no_response o = true) outcomes
         /\ k = Z.to_nat max_attempts
         /\ response = "")
        \/ (exists failed,
              outcomes = (failed ++ [Some response])%list
              /\ Forall (fun o => no_response o = true) failed
              /\ response <> "")).
Proof.
  intros prompt max_attempts w Hremote. unfold Modeling.generate. rewrite Hremote.
  destruct (attempt_loop_run (add_format lm prompt) max_attempts (Z.to_nat max_attempts) 0 w)
    as (k & outcomes & response & w' & Hrun & Hatt & Hk & Hcase); [lia|].
  rewrite Hrun. exists k, response. rewrite Hatt. cbn [fst snd].
  split; [reflexivity|]. split; [exact Hk|exact Hcase].
Qed.




End GenerateFacts.

Section FakeModelFacts.

Lemma nth_in_range_index : forall l i,
  0 <= i < Z.of_nat (length l) ->
  FakeModel.list_index l i = Returns (nth (Z.to_nat i) l "").
Proof.
  intros l i Hi. unfold FakeModel.list_index.
  destruct (0 <=? i) eqn:H0; [|apply Z.leb_gt in H0; lia].
  destruct (i <? Z.of_nat (length l)) eqn:H1; [|apply Z.ltb_ge in H1; lia].
  reflexivity.
Qed.

(** X24. A [FakeModel] with sequential responses and no static response
    serves them round-robin: for every value of the index, negative ones
    included, a call returns the response at position [idx mod n], never
    raises [IndexError], and advances the index by one; the responses
    repeat with period [n]. *)
Theorem fake_model_round_robin : forall fm idx first others,
  FakeModel.static_response fm = "" ->
  FakeModel.sequential_responses fm = Some (first :: others) ->
  let responses := first :: others in
  let n := Z.of_nat (length responses) in
  FakeModel.generate fm idx = (Returns (nth (Z.to_nat (idx mod n)) responses ""), idx + 1)
  /\ fst (FakeModel.generate fm (idx + n)) = fst (FakeModel.generate fm idx).
Proof.
  intros fm idx first others Hstatic Hseq responses n.
  assert (0 < n) as Hn by (unfold n, responses; simpl length; lia).
  assert (forall i, FakeModel.generate fm i
                    = (Returns (nth (Z.to_nat (i mod n)) responses ""), i + 1)) as Hcall.
  { intros i. unfold FakeModel.generate. rewrite Hstatic, Hseq. cbn [is_empty negb].
    fold responses. fold n.
    rewrite (nth_in_range_index responses (i mod n)); [reflexivity|].
    fold n. apply Z.mod_pos_bound. exact Hn. }
  split; [apply Hcall|].
  rewrite !Hcall. cbn [fst].
  rewrite <- (Z.mul_1_l n) at 1. rewrite Z.mod_add by lia. reflexivity.
Qed.

End FakeModelFacts.

(** ** Actor ([modules/actor.py]) *)

Section ActorFacts.
Context {W Action ActionType Result Doc : Type}.
Variable type_of : Action -> ActionType.
Variable ActionType_eqb : ActionType -> ActionType -> bool.
Variable tools : list (@Actor.Tool W Action ActionType Result).
Variable summarize : list Result -> Doc -> W -> list Result * W.

Local Abbreviation tool_for := (Actor.get_corresponding_tool_for_action type_of ActionType_eqb tools).
Local Abbreviation single := (Actor._perform_single type_of ActionType_eqb tools summarize).
Local Abbreviation loop := (Actor.perform_loop type_of ActionType_eqb tools summarize).
Local Abbreviation perform := (Actor.perform type_of ActionType_eqb tools summarize).

(** The loop started with some evidence is the loop started with none,
    with that evidence in front of what it returns. *)
Lemma perform_loop_acc : forall todo doc acc w,
  loop todo doc acc w
  = match loop todo doc [] w with
    | (Returns evidence, w') => (Returns (acc ++ evidence)%list, w')
    | (Raises e, w') => (Raises e, w')
    end.
Proof.
  induction todo as [|action rest IH]; intros doc acc w.
  - simpl. rewrite app_nil_r. reflexivity.
  - simpl. destruct (single action doc w) as [[evidence|e] w1]; [|reflexivity].
    rewrite (IH doc (acc ++ [evidence])%list w1), (IH doc [evidence] w1).
    destruct (loop rest doc [] w1) as [[ev|e] w2]; [|reflexivity].
    rewrite <- app_assoc. reflexivity.
Qed.

(** X25. [perform] composes: performing a list of actions followed by a
    second list is performing the first list and then, from the state
    reached, the second one; the evidence is the evidence of the first
    followed by that of the second, and an exception in the first list
    keeps the second from being performed. *)
Theorem perform_app : forall actions1 actions2 doc w,
  perform (actions1 ++ actions2) doc w
  = match perform actions1 doc w with
    | (Raises e, w1) => (Raises e, w1)
    | (Returns evidence1, w1) =>
        match perform actions2 doc w1 with
        | (Raises e, w2) => (Raises e, w2)
        | (Returns evidence2, w2) => (Returns (evidence1 ++ evidence2)%list, w2)
        end
    end.
Proof.
  unfold Actor.perform. induction actions1 as [|action rest IH]; intros actions2 doc w.
  - simpl. destruct (loop actions2 doc [] w) as [[ev|e] w2]; reflexivity.
  - simpl. destruct (single action doc w) as [[evidence|e] w1]; [|reflexivity].
    rewrite (perform_loop_acc (rest ++ actions2) doc [evidence] w1), (IH actions2 doc w1).
    rewrite (perform_loop_acc rest doc [evidence] w1).
    destruct (loop rest doc [] w1) as [[ev1|e] w2]; [|reflexivity].
    destruct (loop actions2 doc [] w2) as [[ev2|e] w3]; [|reflexivity].
    rewrite app_assoc. reflexivity.
Qed.

Lemma perform_single_supported : forall action doc w tool,
  tool_for action = Returns tool ->
  exists evidence w',
    single action doc w = (Returns evidence, w') /\ Actor.summary evidence = "".
Proof.
  intros action doc w tool Htool. unfold Actor._perform_single. rewrite Htool.
  destruct (Actor.tool_perform tool action w) as [res w1].
  destruct (summarize res doc w1) as [res' w2]. eauto.
Qed.

Lemma perform_loop_supported : forall todo doc w,
  (forall action, In action todo -> exists tool, tool_for action = Returns tool) ->
  exists evidence w',
    loop todo doc [] w = (Returns evidence, w')
    /\ length evidence = length todo
    /\ Forall (fun e => Actor.summary e = "") evidence.
Proof.
  induction todo as [|action rest IH]; intros doc w Hall.
  - exists [], w. simpl. auto.
  - destruct (Hall action (or_introl eq_refl)) as (tool & Htool).
    destruct (perform_single_supported action doc w tool Htool) as (ev & w1 & Hsingle & Hsum).
    destruct (IH doc w1) as (evs & w2 & Hrun & Hlen & Hsums).
    { intros a Ha. apply Hall. right. exact Ha. }
    exists (ev :: evs), w2. simpl. rewrite Hsingle, (perform_loop_acc rest doc [ev] w1), Hrun.
    split; [reflexivity|]. split; [simpl; rewrite Hlen; reflexivity|].
    constructor; assumption.
Qed.

(** X26. When every action has a tool that handles its class, [perform]
    returns one piece of evidence per action, each with an empty
    summary. *)
Theorem perform_supported_actions : forall actions doc w,
  (forall action, In action actions -> exists tool, tool_for action = Returns tool) ->
  exists evidence w',
    perform actions doc w = (Returns evidence, w')
    /\ length evidence = length actions
    /\ Forall (fun e => Actor.summary e = "") evidence.
Proof.
  intros actions doc w Hall. unfold Actor.perform. apply perform_loop_supported. exact Hall.
Qed.

(** X27. An action that no tool handles makes [perform] raise
    [ValueError], and the evidence gathered so far is lost; the tools of
    the actions before it have been performed by then, the actions after
    it are never performed. *)
Theorem perform_unsupported_action : forall before action after doc w,
  (forall a, In a before -> exists tool, tool_for a = Returns tool) ->
  tool_for action = Raises Exn.ValueError ->
  perform (before ++ action :: after) doc w
  = (Raises Exn.ValueError, snd (perform before doc w)).
Proof.
  intros before action after doc w Hbefore Hnone. unfold Actor.perform.
  destruct (perform_loop_supported before doc w Hbefore) as (evs & w1 & Hrun & _).
  rewrite Hrun. cbn [snd]. clear Hbefore.
  revert w evs w1 Hrun. induction before as [|b rest IH]; intros w evs w1 Hrun.
  - simpl in Hrun. inversion Hrun; subst. simpl.
    unfold Actor._perform_single. rewrite Hnone. reflexivity.
  - simpl in *. destruct (single b doc w) as [[ev|e] w2]; [|discriminate].
    rewrite (perform_loop_acc (rest ++ action :: after) doc [ev] w2).
    rewrite (perform_loop_acc rest doc [ev] w2) in Hrun.
    destruct (loop rest doc [] w2) as [[evs'|e] w3] eqn:Hrest; [|discriminate].
    inversion Hrun; subst. rewrite (IH w2 evs' w1 Hrest). reflexivity.
Qed.

End ActorFacts.

(** ** The further properties on concrete inputs *)

Section MoreSessions.
Import Demo.
Import Modeling.
Import DemoMore.

Lemma demo_lowercase_values : lowercase_values DemoLabel.
Proof. intros [] _; reflexivity. Qed.

Lemma demo_unique_values : unique_values DemoLabel.
Proof. intros [] [] _ _ Heq; try reflexivity; discriminate. Qed.

(** X6 on a session of three steps without sufficiency test. *)
Lemma search_runs_all_steps_without_limit_witness :
  0 <= max_retries (demo_deps 3 2)
  /\ exists evs,
       extends (init_St ["```sky color```"])
         (snd (Searcher.search (scripted echo_api) (demo_deps 3 2) sky_claim false true
                 (init_St ["```sky color```"]))) evs
       /\ count_search evs = 3%nat
       /\ (count_generate evs <= 12)%nat.
Proof.
  split; [simpl; lia|].
  apply (search_runs_all_steps_without_limit (scripted echo_api) (demo_deps 3 2) sky_claim true
           (init_St ["```sky color```"])).
  simpl. lia.
Defined.

(** X7 on the second step of a session: the model proposes the stored
    query again and answers the [mixer] prompt with it once more. *)
Lemma duplicate_query_comes_from_mixer_witness :
  let past := [{| query := "sky color"; result := Some "The sky is blue." |}] in
  let st := init_St ["```sky color```"; "sky color"] in
  exists s st' evs,
    Searcher._maybe_get_next_search (scripted echo_api) (demo_deps 5 2) sky_claim past true st
    = (Some s, st')
    /\ extends st st' evs
    /\ query s = "sky color"
    /\ exists stale,
         In stale (map query past)
         /\ In (EvGenerate (Searcher.mixer sky_claim stale) (query s)) evs.
Proof.
  cbv zeta.
  destruct (duplicate_query_comes_from_mixer (scripted echo_api) (demo_deps 5 2) sky_claim
              [{| query := "sky color"; result := Some "The sky is blue." |}] true
              (init_St ["```sky color```"; "sky color"]))
    as (s & st' & evs & Hrun & Hext & Hmix).
  exists s, st', evs. split; [exact Hrun|]. split; [exact Hext|].
  vm_compute in Hrun. inversion Hrun; subst s.
  split; [reflexivity|]. apply Hmix. simpl. left. reflexivity.
Defined.

(** X9 on a session with [max_retries = -1]. *)
Lemma search_without_retry_budget_witness :
  max_retries (demo_deps 3 (-1)) < 0
  /\ exists evs,
       fst (Searcher.search (scripted echo_api) (demo_deps 3 (-1)) sky_claim true true
              (init_St ["insufficient"])) = []
       /\ extends (init_St ["insufficient"])
            (snd (Searcher.search (scripted echo_api) (demo_deps 3 (-1)) sky_claim true true
                    (init_St ["insufficient"]))) evs
       /\ count_search evs = 0%nat.
Proof.
  split; [simpl; lia|].
  apply (search_without_retry_budget (scripted echo_api) (demo_deps 3 (-1)) sky_claim true true
           (init_St ["insufficient"])).
  simpl. lia.
Defined.

(** X10 on a verdict that is not one of the two candidate classes. *)
Lemma extract_verdict_exact_value_witness :
  unique_values DemoLabel
  /\ Judge._extract_verdict (demo_deps 5 2) [L_SUPPORTED; L_REFUTED]
       "The verdict is `Not Enough Info.`" = L_NOT_ENOUGH_INFO.
Proof.
  split; [exact demo_unique_values|].
  apply (extract_verdict_exact_value (demo_deps 5 2) [L_SUPPORTED; L_REFUTED]
           "The verdict is `Not Enough Info.`" L_NOT_ENOUGH_INFO demo_unique_values).
  - simpl. auto.
  - discriminate.
  - vm_compute. reflexivity.
  - vm_compute. reflexivity.
Defined.

(** X11 on a code span of punctuation. *)
Lemma extract_verdict_without_word_witness :
  extract_last_code_span (demo_deps 5 2) "I am not sure: `?!`" = "?!"
  /\ Judge._extract_verdict (demo_deps 5 2) [L_SUPPORTED; L_REFUTED] "I am not sure: `?!`"
     = L_REFUSED_TO_ANSWER.
Proof.
  split; [vm_compute; reflexivity|].
  refine (extract_verdict_without_word (demo_deps 5 2) [L_SUPPORTED; L_REFUTED]
            "I am not sure: `?!`" _).
  intros c Hc. vm_compute in Hc. destruct Hc as [<-|[<-|[]]]; reflexivity.
Defined.

(** X12 on a model that never gives a verdict, with [max_retries = 2]:
    two refused generations before the last one, which is refused too. *)
Lemma judge_outcome_witness :
  exists st' refused last,
    Judge.judge (constant_model "I have no idea.") (demo_deps 5 2) [L_SUPPORTED; L_REFUTED]
      "The sky is green." (init_St 0%nat)
    = (REFUSED_TO_ANSWER, st')
    /\ length refused = 2%nat
    /\ extends (init_St 0%nat) st'
         (map (EvGenerate (JudgePrompt (demo_deps 5 2) "The sky is green."
                             [L_SUPPORTED; L_REFUTED]))
              (refused ++ [last]))
    /\ fst (Judge.get_latest_reasoning st') = Some last.
Proof.
  destruct (judge_outcome (constant_model "I have no idea.") (demo_deps 5 2)
              [L_SUPPORTED; L_REFUTED] "The sky is green." (init_St 0%nat))
    as (st' & refused & last & Hrun & Hext & _ & _ & Hfull & Hlatest).
  assert (fst (Judge.judge (constant_model "I have no idea.") (demo_deps 5 2)
                 [L_SUPPORTED; L_REFUTED] "The sky is green." (init_St 0%nat))
          = REFUSED_TO_ANSWER) as Hverdict by (vm_compute; reflexivity).
  rewrite Hrun in Hverdict. cbn [fst] in Hverdict.
  exists st', refused, last. rewrite Hrun, Hverdict.
  split; [reflexivity|]. split; [exact (Hfull Hverdict)|]. split; [exact Hext|exact Hlatest].
Defined.

(** X13 on the scenario of a bracketed label in upper case. *)
Lemma judge_reason_accepts_bracketed_label_witness :
  0 <= max_retries (demo_deps 5 2)
  /\ lowercase_values DemoLabel
  /\ exists st',
       Judge.reason (scripted empty_api) (demo_deps 5 2) [L_SUPPORTED; L_REFUTED] sky_claim []
         (init_St ["The sky is blue. [REFUTED]"; "supported"])
       = (Ok (L_REFUTED, "The sky is blue. [REFUTED]"), st')
       /\ world st' = ["supported"].
Proof.
  split; [simpl; lia|]. split; [exact demo_lowercase_values|].
  destruct (judge_reason_accepts_bracketed_label (scripted empty_api) (demo_deps 5 2)
              [L_SUPPORTED; L_REFUTED] sky_claim []
              (init_St ["The sky is blue. [REFUTED]"; "supported"]))
    as (l & st' & Hrun & Hval & _ & Hext);
    [simpl; lia|exact demo_lowercase_values|reflexivity|discriminate|vm_compute; reflexivity
    |vm_compute; reflexivity|].
  exists st'. rewrite Hrun. vm_compute in Hrun. inversion Hrun; subst. split; reflexivity.
Defined.

(** X14 on a response without label, corrected to a label, and on one
    whose correction fails. *)
Lemma judge_reason_corrects_once_witness :
  0 <= max_retries (demo_deps 5 2)
  /\ lowercase_values DemoLabel
  /\ unique_values DemoLabel
  /\ fst (Judge.reason (scripted empty_api) (demo_deps 5 2) [L_SUPPORTED; L_REFUTED] sky_claim []
            (init_St ["The sky is blue."; "Refuted"]))
     = Ok (L_REFUTED, "The sky is blue.")
  /\ fst (Judge.reason (scripted empty_api) (demo_deps 5 2) [L_SUPPORTED; L_REFUTED] sky_claim []
            (init_St ["The sky is blue."; "It is refuted."]))
     = Ok (L_REFUSED_TO_ANSWER, "The sky is blue.").
Proof.
  split; [simpl; lia|]. split; [exact demo_lowercase_values|].
  split; [exact demo_unique_values|]. split.
  - destruct (judge_reason_corrects_once (scripted empty_api) (demo_deps 5 2)
                [L_SUPPORTED; L_REFUTED] sky_claim [] (init_St ["The sky is blue."; "Refuted"]))
      as (l & st' & select & adjusted & Hrun & _);
      [simpl; lia|exact demo_lowercase_values|exact demo_unique_values|reflexivity
      |vm_compute; reflexivity|].
    rewrite Hrun. vm_compute in Hrun. inversion Hrun; subst. reflexivity.
  - destruct (judge_reason_corrects_once (scripted empty_api) (demo_deps 5 2)
                [L_SUPPORTED; L_REFUTED] sky_claim []
                (init_St ["The sky is blue."; "It is refuted."]))
      as (l & st' & select & adjusted & Hrun & _);
      [simpl; lia|exact demo_lowercase_values|exact demo_unique_values|reflexivity
      |vm_compute; reflexivity|].
    rewrite Hrun. vm_compute in Hrun. inversion Hrun; subst. reflexivity.
Defined.

(** X15 on a refusal: no member of the example enumeration has the value
    "refused", so the conversion raises. *)
Lemma judge_reason_on_guardrail_hit_witness :
  0 <= max_retries (demo_deps 5 2)
  /\ fst (Judge.reason (scripted empty_api) (demo_deps 5 2) [L_SUPPORTED; L_REFUTED] sky_claim []
            (init_St ["I cannot help with that."; "refuted"]))
     = Raise ValueError.
Proof.
  split; [simpl; lia|].
  destruct (judge_reason_on_guardrail_hit (scripted empty_api) (demo_deps 5 2)
              [L_SUPPORTED; L_REFUTED] sky_claim []
              (init_St ["I cannot help with that."; "refuted"]))
    as (st' & _ & Hrun); [simpl; lia|reflexivity|].
  rewrite Hrun. reflexivity.
Defined.

(** X16 on evidence with a discarded result. *)
Lemma reasoner_reason_absent_result_witness :
  0 <= max_retries (demo_deps 5 2)
  /\ Reasoner.reason (scripted empty_api) (demo_deps 5 2) sky_claim
       [{| query := "sky color"; result := Some "The sky is blue." |};
        {| query := "color of the sky"; result := None |}]
       (init_St ["[supported]"])
     = (Raise TypeError, init_St ["[supported]"]).
Proof.
  split; [simpl; lia|].
  apply (reasoner_reason_absent_result (scripted empty_api) (demo_deps 5 2) sky_claim
           [{| query := "sky color"; result := Some "The sky is blue." |};
            {| query := "color of the sky"; result := None |}]
           (init_St ["[supported]"])
           {| query := "color of the sky"; result := None |}).
  - simpl. lia.
  - right. left. reflexivity.
  - reflexivity.
Defined.

(** X18 on the first full name of [run.py]. *)
Lemma model_name_round_trip_witness :
  NoDup (map Shorthand example_models)
  /\ model_full_name_to_shorthand example_models "OPENAI:gpt-3.5-turbo-0125" = Returns "gpt_35"
  /\ model_shorthand_to_full_name example_models "gpt_35" = Returns "OPENAI:gpt-3.5-turbo-0125".
Proof.
  assert (NoDup (map Shorthand example_models)) as Hnd.
  { simpl. repeat constructor; simpl; intuition discriminate. }
  split; [exact Hnd|]. split; [reflexivity|].
  apply (model_name_round_trip example_models "OPENAI:gpt-3.5-turbo-0125" "gpt_35" Hnd).
  reflexivity.
Defined.

(** X19 on the shorthand of the second model. *)
Lemma model_shorthand_round_trip_witness :
  NoDup (map (fun row => (Platform row, Specifier row)) example_models)
  /\ model_shorthand_to_full_name example_models "llama3_8b"
     = Returns "huggingface:meta-llama/Meta-Llama-3-8B-Instruct"
  /\ model_full_name_to_shorthand example_models
       "huggingface:meta-llama/Meta-Llama-3-8B-Instruct" = Returns "llama3_8b".
Proof.
  assert (NoDup (map (fun row => (Platform row, Specifier row)) example_models)) as Hnd.
  { simpl. repeat constructor; simpl; intuition discriminate. }
  split; [exact Hnd|]. split; [reflexivity|].
  apply (model_shorthand_round_trip example_models "llama3_8b"
           "huggingface:meta-llama/Meta-Llama-3-8B-Instruct" Hnd).
  - intros row [<-|[<-|[]]]; split; reflexivity.
  - reflexivity.
Defined.

(** X21 on the first model. *)
Lemma context_window_of_full_name_witness :
  NoDup (map Shorthand example_models)
  /\ get_model_context_window example_models "OPENAI:gpt-3.5-turbo-0125" = Returns 16385
  /\ get_model_context_window example_models "gpt_35" = Returns 16385.
Proof.
  assert (NoDup (map Shorthand example_models)) as Hnd.
  { simpl. repeat constructor; simpl; intuition discriminate. }
  split; [exact Hnd|].
  destruct (context_window_of_full_name example_models "OPENAI:gpt-3.5-turbo-0125" "gpt_35" Hnd)
    as [Hsame _].
  - simpl. intuition discriminate.
  - reflexivity.
  - rewrite Hsame. split; reflexivity.
Defined.

(** X22 on a remote model that times out, answers with an empty text and
    then answers: the third attempt is returned and the fourth response of
    the script is never asked for. *)
Lemma generate_remote_attempts_witness :
  open_source scripted_remote = false
  /\ Modeling.generate scripted_remote "Is the sky green?" 3 [None; Some ""; Some "No."; Some "Yes."]
     = ("No.", [Some "Yes."])
  /\ exists k response,
       let outcomes :=
         fst (attempts scripted_remote k "Is the sky green?"
                [None; Some ""; Some "No."; Some "Yes."]) in
       Modeling.generate scripted_remote "Is the sky green?" 3 [None; Some ""; Some "No."; Some "Yes."]
       = (response,
          snd (attempts scripted_remote k "Is the sky green?"
                 [None; Some ""; Some "No."; Some "Yes."]))
       /\ (k <= 3)%nat
       /\ ((Forall (fun o => no_response o = true) outcomes /\ k = 3%nat /\ response = "")
           \/ (exists failed,
                 outcomes = (failed ++ [Some response])%list
                 /\ Forall (fun o => no_response o = true) failed
                 /\ response <> "")).
Proof.
  split; [reflexivity|]. split; [reflexivity|].
  exact (generate_remote_attempts scripted_remote "Is the sky green?" 3
           [None; Some ""; Some "No."; Some "Yes."] eq_refl).
Defined.


(** X24 on three responses: the fifth call (index 4) returns the second
    response, and so does the call with index -2. *)
Lemma fake_model_round_robin_witness :
  FakeModel.static_response example_fake = ""
  /\ FakeModel.generate example_fake 4 = (Returns "sufficient", 5)
  /\ FakeModel.generate example_fake (-2) = (Returns "sufficient", -1)
  /\ fst (FakeModel.generate example_fake (4 + 3)) = fst (FakeModel.generate example_fake 4).
Proof.
  split; [reflexivity|].
  destruct (fake_model_round_robin example_fake 4 "insufficient" ["sufficient"; "supported"]
              eq_refl eq_refl) as [Hcall Hperiod].
  destruct (fake_model_round_robin example_fake (-2) "insufficient" ["sufficient"; "supported"]
              eq_refl eq_refl) as [Hneg _].
  split; [exact Hcall|]. split; [exact Hneg|exact Hperiod].
Defined.

(** X26 on two web searches. *)
Lemma perform_supported_actions_witness :
  exists evidence w',
    Actor.perform example_type_of example_type_eqb [searcher_tool] example_summarize
      [(WebSearch, "sky color"); (WebSearch, "color of the sky")] "The sky is green." []
    = (Returns evidence, w')
    /\ length evidence = 2%nat
    /\ w' = ["sky color"; "color of the sky"].
Proof.
  destruct (perform_supported_actions example_type_of example_type_eqb [searcher_tool]
              example_summarize
              [(WebSearch, "sky color"); (WebSearch, "color of the sky")] "The sky is green." [])
    as (evidence & w' & Hrun & Hlen & _).
  - intros action [<-|[<-|[]]]; exists searcher_tool; reflexivity.
  - exists evidence, w'. split; [exact Hrun|]. split; [exact Hlen|].
    vm_compute in Hrun. inversion Hrun. reflexivity.
Defined.

(** X27 on a face recognition, which no tool handles, between two web
    searches: the first search is performed, the second is not. *)
Lemma perform_unsupported_action_witness :
  Actor.get_corresponding_tool_for_action example_type_of example_type_eqb [searcher_tool]
    (FaceRecognition, "portrait") = Raises Exn.ValueError
  /\ Actor.perform example_type_of example_type_eqb [searcher_tool] example_summarize
       [(WebSearch, "sky color"); (FaceRecognition, "portrait"); (WebSearch, "color of the sky")]
       "The sky is green." []
     = (Raises Exn.ValueError, ["sky color"]).
Proof.
  split; [reflexivity|].
  refine (perform_unsupported_action example_type_of example_type_eqb [searcher_tool]
            example_summarize [(WebSearch, "sky color")] (FaceRecognition, "portrait")
            [(WebSearch, "color of the sky")] "The sky is green." [] _ _).
  - intros a [<-|[]]. exists searcher_tool. reflexivity.
  - reflexivity.
Defined.



(** In the session of the counterexample of C5 the model answers the
    [mixer] prompt with the query that is stored. *)
Lemma duplicate_query_session_mixer_answer :
  let st' :=
    snd (Searcher.search (scripted long_api) (demo_deps 2 0) sky_claim false true
           (init_St ["```sky color```"; "The sky is blue.";
                     "```sky color```"; "sky color"; "The sky is blue."])) in
  In (EvGenerate (Searcher.mixer sky_claim "sky color") "sky color") (trace st')
  /\ mixer_answers_fresh sky_claim [] (trace st') = false.
Proof.
  cbv zeta. split; [vm_compute; auto 10|vm_compute; reflexivity].
Qed.

End MoreSessions.
